(** * Cafe24 automation hub: token lifecycle and resilient request pipeline

    A shallow embedding of
      - [src/core/exceptions.py]    (the exception hierarchy),
      - [src/core/token_manager.py] (class [TokenManager]),
      - [src/core/auth_manager.py]  (class [AuthManager]),
      - [src/api/client.py]         (class [Cafe24Client]),
    followed by the properties of the specification that concern them.

    Conventions.
      - A [datetime] is a [Z]: microseconds on the wall clock, the resolution
        of [datetime.now()].  A [timedelta] is a [Z] number of microseconds.
      - Python [str] and [bytes] are both [string] (a byte sequence); on them
        [.encode()] and [.decode()] are the identity.
      - Everything the process does to the outside (reading the clock, the
        two stores, the HTTP calls, sleeping) is threaded through a [World];
        what the outside answers is given by the oracles of an [Env]. *)

From stdpp Require Import base option gmap strings list pretty.
From Stdlib Require Import ZArith Lia Ascii.

Local Open Scope Z_scope.
Set Warnings "-register-all".

(** ** Python values *)

(** The JSON-like values that travel through the code.  [PIso t] stands for
    the string [t.isoformat()]: [datetime.fromisoformat] reads it back as
    [t], and raises [ValueError] on every other string. *)
Inductive pyval : Type :=
  | PNone
  | PBool (b : bool)
  | PInt (n : Z)
  | PStr (s : string)
  | PIso (t : Z)
  | PList (l : list pyval)
  | PDict (items : list (string * pyval)).

(** A flat dictionary with string keys, such as the record of one token. *)
Abbreviation pydict := (gmap string pyval).

(** [type(v).__name__] *)
Definition type_name (v : pyval) : string :=
  match v with
  | PNone => "NoneType"
  | PBool _ => "bool"
  | PInt _ => "int"
  | PStr _ | PIso _ => "str"
  | PList _ => "list"
  | PDict _ => "dict"
  end.

(** [d.get(k)] on the items of a (nested) dictionary. *)
Fixpoint items_get (k : string) (items : list (string * pyval)) : option pyval :=
  match items with
  | [] => None
  | (k', v) :: rest => if decide (k' = k) then Some v else items_get k rest
  end.

(** The text of an exception, kept as the f-string that built it. *)
Inductive fstring : Type :=
  | FStr (s : string)
  | FInt (n : Z)
  | FVal (v : pyval)
  | FCat (a b : fstring).

(** ** src/core/exceptions.py *)

Inductive exn_class : Type :=
  | Cafe24Error
  | AuthenticationError
  | TokenExpiredError
  | TokenNotFoundError
  | APIError
  | RateLimitError
  | ValidationError
  | ConfigurationError
  | NetworkError
  | TimeoutError          (* asyncio.TimeoutError *)
  | ValueError
  | AttributeError
  | ForeignError (name : string) (* any other subclass of Exception *)
  | PyException.          (* the root class Exception *)

Global Instance exn_class_eq_dec : EqDecision exn_class.
Proof. solve_decision. Defined.

(** The direct base class written in each [class] statement. *)
Definition base_class (c : exn_class) : option exn_class :=
  match c with
  | PyException => None
  | Cafe24Error => Some PyException
  | AuthenticationError => Some Cafe24Error
  | TokenExpiredError => Some AuthenticationError
  | TokenNotFoundError => Some AuthenticationError
  | APIError => Some Cafe24Error
  | RateLimitError => Some APIError
  | ValidationError => Some Cafe24Error
  | ConfigurationError => Some Cafe24Error
  | NetworkError => Some Cafe24Error
  | TimeoutError | ValueError | AttributeError | ForeignError _ => Some PyException
  end.

(** [issubclass c d], following base classes; the hierarchy is four deep. *)
Fixpoint issubclass_fuel (n : nat) (c d : exn_class) : bool :=
  if decide (c = d) then true
  else match n with
       | O => false
       | S n' => match base_class c with
                 | Some b => issubclass_fuel n' b d
                 | None => false
                 end
       end.

Definition issubclass (c d : exn_class) : bool := issubclass_fuel 4 c d.

(** An exception object: its class, [str(e)], and the two attributes that
    [APIError.__init__] sets ([None] on every other class). *)
Record exn : Type := mk_exn {
  exn_cls : exn_class;
  exn_str : fstring;
  exn_status_code : option Z;
  exn_response_data : option pyval
}.

Definition new_exn (c : exn_class) (msg : fstring) : exn :=
  mk_exn c msg None None.

(** [APIError(message, status_code, response_data)] *)
Definition new_APIError (msg : fstring) (status : option Z) (data : option pyval) : exn :=
  mk_exn APIError msg status data.

Definition isinstance (e : exn) (c : exn_class) : bool := issubclass (exn_cls e) c.

(** The exceptions that leave the authentication manager, and the classes
    of those that can leave [request] (see [request_fuel_raises]). *)
Definition auth_class (e : exn) : Prop :=
  exn_cls e = AuthenticationError \/ exn_cls e = TokenExpiredError.

Definition request_class (e : exn) : Prop :=
  exn_cls e = NetworkError \/ auth_class e.

(** The outcome of a call: a returned value or a raised exception. *)
Inductive res (A : Type) : Type :=
  | Ret (a : A)
  | Raise (e : exn).
Arguments Ret {A} a.
Arguments Raise {A} e.

(** ** The outside world *)

Definition second : Z := 1000000.
Definition seconds (n : Z) : Z := n * second.

(** [n / d] rounded to the nearest integer, a tie to the even one. *)
Definition round_half_even (n d : Z) : Z :=
  let q := n / d in
  let r := n mod d in
  if decide (2 * r < d) then q
  else if decide (d < 2 * r) then q + 1
  else if Z.even q then q else q + 1.

(** [int(a / b)] for integers [0 <= a] and [0 < b < 2 ** 53]: the true
    division gives the binary64 number nearest to the quotient (53
    significant bits, a tie to the even one), and [int] drops its fraction.
    With [e] the binary exponent of the quotient, the float is the rounded
    significand times [2 ** (e - 52)]. *)
Definition int_of_true_div (a b : Z) : Z :=
  if decide (a < b) then 0
  else
    let e := Z.log2 (a / b) in
    if decide (e <= 52) then
      round_half_even (a * 2 ^ (52 - e)) b / 2 ^ (52 - e)
    else
      round_half_even a (b * 2 ^ (e - 52)) * 2 ^ (e - 52).

(** [int(td.total_seconds())]: [total_seconds] divides the microseconds by
    [10 ** 6] as a float, and [int] rounds toward zero.  Up to [2 ** 32]
    seconds this is the exact quotient (see [whole_seconds_exact]). *)
Definition whole_seconds (td : Z) : Z :=
  Z.sgn td * int_of_true_div (Z.abs td) second.

(** [datetime.min] and [datetime.max] (years 1 and 9999) on the same axis;
    an addition that leaves the range raises [OverflowError]. *)
Definition datetime_min : Z := -62135596800000000.
Definition datetime_max : Z := 253402300799999999.

Definition datetime_add (t td : Z) : option Z :=
  if decide (datetime_min <= t + td <= datetime_max) then Some (t + td) else None.

(** What can be observed of a run. *)
Inductive event : Type :=
  | EvSleep (micros : Z)                     (* asyncio.sleep *)
  | EvRequest (method url : string)          (* session.request *)
  | EvTokenPost (grant_type : string).       (* client.post(token_url) *)

(** The Redis cache holds, under each key, the record and the lifetime in
    seconds given to [setex]; a key that Redis has expired is simply no
    longer in the map.  The token file is kept as the mapping it
    deserialises to: [_save_all_tokens] encrypts the JSON of the mapping
    with the cipher of the instance and [_load_all_tokens] decrypts it with
    the same cipher; a missing or empty file reads as the empty mapping. *)
Record World : Type := mk_world {
  ticks : nat;                                   (* readings of datetime.now() so far *)
  encryptions : nat;                             (* calls of _cipher.encrypt so far *)
  redis : option (gmap string (pydict * Z));     (* self._redis_client, None if absent *)
  token_file : gmap string pydict;               (* .tokens.encrypted *)
  token_posts : nat;                             (* POSTs to the token endpoint so far *)
  http_calls : nat;                              (* session.request calls so far *)
  _rate_limit_reset : option Z;
  _requests_this_minute : Z;
  trace : list event                             (* newest first *)
}.

Definition set_ticks (n : nat) (w : World) : World :=
  mk_world n (encryptions w) (redis w) (token_file w) (token_posts w)
           (http_calls w) (_rate_limit_reset w) (_requests_this_minute w) (trace w).
Definition set_encryptions (n : nat) (w : World) : World :=
  mk_world (ticks w) n (redis w) (token_file w) (token_posts w)
           (http_calls w) (_rate_limit_reset w) (_requests_this_minute w) (trace w).
Definition set_redis (r : option (gmap string (pydict * Z))) (w : World) : World :=
  mk_world (ticks w) (encryptions w) r (token_file w) (token_posts w)
           (http_calls w) (_rate_limit_reset w) (_requests_this_minute w) (trace w).
Definition set_token_file (f : gmap string pydict) (w : World) : World :=
  mk_world (ticks w) (encryptions w) (redis w) f (token_posts w)
           (http_calls w) (_rate_limit_reset w) (_requests_this_minute w) (trace w).
Definition set_token_posts (n : nat) (w : World) : World :=
  mk_world (ticks w) (encryptions w) (redis w) (token_file w) n
           (http_calls w) (_rate_limit_reset w) (_requests_this_minute w) (trace w).
Definition set_http_calls (n : nat) (w : World) : World :=
  mk_world (ticks w) (encryptions w) (redis w) (token_file w) (token_posts w)
           n (_rate_limit_reset w) (_requests_this_minute w) (trace w).
Definition set_rate_limit (reset : option Z) (count : Z) (w : World) : World :=
  mk_world (ticks w) (encryptions w) (redis w) (token_file w) (token_posts w)
           (http_calls w) reset count (trace w).
Definition emit (e : event) (w : World) : World :=
  mk_world (ticks w) (encryptions w) (redis w) (token_file w) (token_posts w)
           (http_calls w) (_rate_limit_reset w) (_requests_this_minute w) (e :: trace w).

(** The sleeps of a trace, oldest first. *)
Definition sleeps (tr : list event) : list Z :=
  omap (fun e => match e with EvSleep d => Some d | _ => None end) (reverse tr).

(** ** The environment of one process *)

(** [self.settings], as far as the three classes read it. *)
Record Settings : Type := mk_settings {
  cafe24_base_url : string;
  cafe24_client_id : string;
  cafe24_client_secret : string;
  api_version : string;
  max_retries : Z
}.

(** The body of a successful answer of the token endpoint,
    [{access_token, token_type, expires_in, refresh_token?, scope?}], each
    key present or not; [expires_in] is a whole number of seconds. *)
Record token_data : Type := mk_token_data {
  td_access_token : option string;
  td_expires_in : option Z;
  td_token_type : option string;
  td_scope : option string;
  td_refresh_token : option string
}.

(** What the token endpoint does with the [k]-th POST: the transport raises,
    [raise_for_status] raises [HTTPStatusError], or the call succeeds with a
    body. *)
Inductive post_outcome : Type :=
  | PostRaises (e : exn)
  | PostStatusError (status : Z) (text : string)
  | PostOk (body : res token_data).      (* Raise e: response.json() raises e *)

(** What [response.json()] does: it returns the decoded body, it raises
    [json.JSONDecodeError] (the body is text, but not JSON), or it raises
    another exception (a [UnicodeDecodeError] for a body that is not
    UTF-8). *)
Inductive json_outcome : Type :=
  | JsonValue (v : pyval)
  | JsonDecodeError
  | JsonRaises (e : exn).

(** A response of [session.request]; [headers] is looked up under the
    name that the code uses (httpx ignores the case of header names). *)
Record Response : Type := mk_response {
  status_code : Z;
  headers : gmap string string;
  text : string;
  json : json_outcome
}.

(** What [session.request] does: it raises, or it returns a response. *)
Inductive http_outcome : Type :=
  | HttpRaises (e : exn)
  | HttpResponse (r : Response).

(** The oracles of one run: the settings, the wall clock by reading, the
    Fernet cipher of the instance ([encrypt] draws a fresh IV at each call,
    here the number of the call), the two remote endpoints by call, and the
    built-in [int] on strings. *)
Class Env : Type := mk_env {
  settings : Settings;
  clock : nat -> Z;
  fernet_key : string;
  fernet_encrypt : string -> nat -> string -> string;
  fernet_decrypt : string -> string -> option string;
  token_endpoint : nat -> string -> string -> post_outcome;
  admin_api : nat -> string -> string -> http_outcome;
  py_int : string -> option Z
}.

Section Hub.

Context {env : Env}.

(** [datetime.now()] *)
Definition now (w : World) : Z * World :=
  (clock (ticks w), set_ticks (S (ticks w)) w).

(** [asyncio.sleep(delay)] *)
Definition sleep (micros : Z) (w : World) : World := emit (EvSleep micros) w.

(** *** src/core/token_manager.py *)

Definition redis_key (token_type : string) : string :=
  String.app "cafe24:token:" token_type.

(** [self._cipher.encrypt(data)] *)
Definition encrypt (data : string) (w : World) : string * World :=
  (fernet_encrypt fernet_key (encryptions w) data,
   set_encryptions (S (encryptions w)) w).

(** [self._cipher.decrypt(data)]; [None] when it raises [InvalidToken]. *)
Definition decrypt (data : string) : option string :=
  fernet_decrypt fernet_key data.

Definition _load_all_tokens (w : World) : gmap string pydict := token_file w.

Definition _save_all_tokens (tokens : gmap string pydict) (w : World) : World :=
  set_token_file tokens (set_encryptions (S (encryptions w)) w).

Definition _save_to_file (token_type : string) (data : pydict) (w : World) : World :=
  _save_all_tokens (<[token_type := data]> (_load_all_tokens w)) w.

Definition _load_from_file (token_type : string) (w : World) : option pydict :=
  _load_all_tokens w !! token_type.

(** [save_token]: the world afterwards and the success status.  The
    [except Exception] clause of the source answers [False] for every
    exception of the body.  The two stores of a [World] answer every call,
    and a token is a string, so that the body of the model fails in the two
    ways that depend on its arguments: the date that overflows, and the
    lifetime that Redis refuses.  A disk that fails, a Redis server that
    cannot be reached or a token that cannot be encoded are not part of the
    [World]; what is proved of a successful save is proved of a store that
    works. *)
Definition save_token (token_type token : string) (expires_in : Z)
    (additional_data : option pydict) (w : World) : World * bool :=
  let '(t1, w) := now w in
  match datetime_add t1 (seconds expires_in) with
  | None => (w, false)                                  (* OverflowError *)
  | Some expires_at =>
      let '(t2, w) := now w in
      let data : pydict :=
        {[ "token" := PStr token; "expires_at" := PIso expires_at;
           "created_at" := PIso t2; "type" := PStr token_type ]} in
      let data :=
        match additional_data with
        | Some extra => if decide (extra = ∅) then data else extra ∪ data
        | None => data
        end in
      let '(encrypted_token, w) := encrypt token w in
      let data := <["token" := PStr encrypted_token]> data in
      match redis w with
      | Some r =>
          if decide (0 < expires_in) then
            let w := set_redis (Some (<[redis_key token_type := (data, expires_in)]> r)) w in
            (_save_to_file token_type data w, true)
          else (w, false)                               (* setex refuses the lifetime *)
      | None => (_save_to_file token_type data w, true)
      end
  end.

Definition delete_token (token_type : string) (w : World) : World :=
  let w :=
    match redis w with
    | Some r => set_redis (Some (delete (redis_key token_type) r)) w
    | None => w
    end in
  let tokens := _load_all_tokens w in
  match tokens !! token_type with
  | Some _ => _save_all_tokens (delete token_type tokens) w
  | None => w
  end.

(** The record a lookup works on: Redis first, the file when Redis has
    nothing (or an empty record) for the key. *)
Definition lookup_record (token_type : string) (w : World) : option pydict :=
  let data :=
    match redis w with
    | Some r => fst <$> r !! redis_key token_type
    | None => None
    end in
  match data with
  | Some d => if decide (d = ∅) then _load_from_file token_type w else Some d
  | None => _load_from_file token_type w
  end.

(** [datetime.fromisoformat(data['expires_at'])] *)
Definition expires_at_of (data : pydict) : option Z :=
  match data !! "expires_at" with
  | Some (PIso t) => Some t
  | _ => None                                           (* KeyError, TypeError, ValueError *)
  end.

(** [get_token]; every exception inside is turned into [None]. *)
Definition get_token (token_type : string) (w : World) : World * option string :=
  match lookup_record token_type w with
  | None => (w, None)
  | Some data =>
      if decide (data = ∅) then (w, None)
      else
        match expires_at_of data with
        | None => (w, None)
        | Some expires_at =>
            let '(t, w) := now w in
            if decide (t > expires_at) then (delete_token token_type w, None)
            else
              match data !! "token" with
              | Some (PStr encrypted_token) => (w, decrypt encrypted_token)
              | _ => (w, None)
              end
        end
  end.

Definition clear_all (w : World) : World :=
  let w :=
    match redis w with
    | Some r =>
        set_redis (Some (filter (fun kv => negb (String.prefix "cafe24:token:" kv.1)) r)) w
    | None => w
    end in
  set_token_file ∅ w.

(** The record [get_token_info] works on: with a Redis client the one in
    Redis, without it the one in the file. *)
Definition lookup_info_record (token_type : string) (w : World) : option pydict :=
  match redis w with
  | Some r => fst <$> r !! redis_key token_type
  | None => _load_from_file token_type w
  end.

Definition get_token_info (token_type : string) (w : World) : World * option pydict :=
  match lookup_info_record token_type w with
  | None => (w, None)
  | Some data =>
      if decide (data = ∅) then (w, None)
      else
        let info := delete "token" data in
        match expires_at_of info with
        | None => (w, None)
        | Some expires_at =>
            let '(t1, w) := now w in
            let info := <["is_expired" := PBool (bool_decide (t1 > expires_at))]> info in
            let '(t2, w) := now w in
            let info := <["expires_in_seconds" := PInt (whole_seconds (expires_at - t2))]> info in
            (w, Some info)
        end
  end.

(** *** src/core/auth_manager.py *)

Definition _save_tokens (td : token_data) (w : World) : World :=
  let w :=
    match td_access_token td with
    | Some access_token =>
        let expires_in := default 7200 (td_expires_in td) in
        (save_token "access" access_token expires_in
           (Some {[ "token_type" := PStr (default "Bearer" (td_token_type td));
                    "scope" := PStr (default "" (td_scope td)) ]}) w).1
    | None => w
    end in
  match td_refresh_token td with
  | Some refresh_token => (save_token "refresh" refresh_token 2592000 None w).1
  | None => w
  end.

Definition refresh_failed (e : exn) : exn :=
  new_exn AuthenticationError (FCat (FStr "Token refresh failed: ") (exn_str e)).

Definition refresh_access_token (w : World) : World * res string :=
  let '(w, refresh_token) := get_token "refresh" w in
  match refresh_token with
  | Some (String c rest as refresh_token) =>
      let k := token_posts w in
      let w := emit (EvTokenPost "refresh_token") (set_token_posts (S k) w) in
      match token_endpoint k "refresh_token" refresh_token with
      | PostStatusError _ _ =>
          (* except httpx.HTTPStatusError *)
          (clear_all w,
           Raise (new_exn TokenExpiredError (FStr "Token refresh failed. Please re-authenticate.")))
      | PostRaises e =>
          (* except Exception *)
          (w, Raise (refresh_failed e))
      | PostOk (Raise e) => (w, Raise (refresh_failed e))
      | PostOk (Ret td) =>
          let w := _save_tokens td w in
          match td_access_token td with
          | Some access_token => (w, Ret access_token)
          | None =>
              (* KeyError: 'access_token' *)
              (w, Raise (refresh_failed (new_exn (ForeignError "KeyError") (FStr "'access_token'"))))
          end
      end
  | _ =>
      (w, Raise (new_exn TokenExpiredError
                   (FStr "No refresh token available. Please re-authenticate.")))
  end.

(** [token_info and token_info.get('expires_in_seconds', 0) > 300] *)
Definition outside_margin (token_info : option pydict) : bool :=
  match token_info with
  | Some info =>
      if decide (info = ∅) then false
      else match default (PInt 0) (info !! "expires_in_seconds") with
           | PInt n => bool_decide (n > 300)
           | _ => false
           end
  | None => false
  end.

Definition get_valid_token (w : World) : World * res string :=
  let '(w, access_token) := get_token "access" w in
  match access_token with
  | Some (String c rest as access_token) =>
      let '(w, token_info) := get_token_info "access" w in
      if outside_margin token_info then (w, Ret access_token)
      else refresh_access_token w
  | _ =>
      (w, Raise (new_exn AuthenticationError
                   (FStr "No valid access token. Please authenticate using the authorization URL.")))
  end.

Definition get_async_auth_headers (w : World) : World * res (gmap string string) :=
  match get_valid_token w with
  | (w, Ret access_token) =>
      (w, Ret {[ "Authorization" := String.app "Bearer " access_token;
                 "Content-Type" := "application/json";
                 "X-Cafe24-Api-Version" := api_version settings ]})
  | (w, Raise e) => (w, Raise e)
  end.

(** *** src/api/client.py *)

(** Lines 68-83 of [_handle_rate_limit]: open a new window when the old
    one is over, and sleep out the rest of the window at 95 requests. *)
Definition throttle (w : World) : World :=
  let '(current_time, w) := now w in
  let '(reset, count) :=
    match _rate_limit_reset w with
    | None => (current_time, 0)
    | Some reset =>
        if decide (current_time - reset >= seconds 60) then (current_time, 0)
        else (reset, _requests_this_minute w)
    end in
  let w := set_rate_limit (Some reset) count w in
  if decide (count >= 95) then
    let wait_time := seconds 60 - (current_time - reset) in
    if decide (wait_time > 0) then
      let w := sleep wait_time w in
      let '(t, w) := now w in
      set_rate_limit (Some t) 0 w
    else w
  else w.

(** [_handle_rate_limit]: the above, then [self._requests_this_minute += 1]. *)
Definition _handle_rate_limit (w : World) : World :=
  let w := throttle w in
  set_rate_limit (_rate_limit_reset w) (_requests_this_minute w + 1) w.

(** The arguments of [request] that stay the same over the retries. *)
Record request_args : Type := mk_request_args {
  method : string;
  endpoint : string;
  params : option pyval;
  data : option pyval;
  json_data : option pyval;
  extra_headers : option (gmap string string)
}.

(** [endpoint.lstrip('/')] *)
Fixpoint lstrip_slash (s : string) : string :=
  match s with
  | String "/"%char rest => lstrip_slash rest
  | _ => s
  end.

Definition request_url (a : request_args) : string :=
  if String.prefix "http" (endpoint a) then endpoint a
  else String.app (cafe24_base_url settings)
         (String.app "/admin/" (lstrip_slash (endpoint a))).

Definition auth_failed (refresh_error : exn) : exn :=
  new_exn AuthenticationError (FCat (FStr "Authentication failed: ") (exn_str refresh_error)).

(** [int(response.headers.get('Retry-After', 60))] *)
Definition retry_after_of (response : Response) : res Z :=
  match headers response !! "Retry-After" with
  | None => Ret 60
  | Some v =>
      match py_int v with
      | Some n => Ret n
      | None =>
          Raise (new_exn ValueError
                   (FCat (FStr "invalid literal for int() with base 10: ") (FVal (PStr v))))
      end
  end.

(** The exception that the branch for client errors raises; its bare
    [except] replaces every failure of [response.json()]. *)
Definition client_error (response : Response) : exn :=
  let error_data :=
    match json response with
    | JsonValue j => j
    | JsonDecodeError | JsonRaises _ => PDict [("message", PStr (text response))]
    end in
  match error_data with
  | PDict items =>
      let error_msg :=
        match items_get "message" items with
        | Some v => FVal v
        | None => FCat (FStr "Client error: ") (FInt (status_code response))
        end in
      new_APIError error_msg (Some (status_code response)) (Some error_data)
  | _ =>
      new_exn AttributeError
        (FStr (String.app "'"
                 (String.app (type_name error_data) "' object has no attribute 'get'")))
  end.

Definition envelope (message raw : string) : pyval :=
  PDict [("message", PStr message); ("data", PStr raw)].

(** [return response.json()] under [except json.JSONDecodeError]: only
    that exception is replaced by the envelope, any other one leaves the
    branch. *)
Definition json_or_envelope (message : string) (response : Response) : res pyval :=
  match json response with
  | JsonValue v => Ret v
  | JsonDecodeError => Ret (envelope message (text response))
  | JsonRaises e => Raise e
  end.

(** The body of the [try] statement of [request], from the result of
    [session.request] on; [retry] is the recursive call
    [self.request(..., retry_count - 1)], which answers [None] when the
    fuel below is used up. *)
Definition try_body (retry : World -> option (World * res pyval)) (retry_count : Z)
    (outcome : http_outcome) (w : World) : option (World * res pyval) :=
  match outcome with
  | HttpRaises e => Some (w, Raise e)
  | HttpResponse response =>
      let status := status_code response in
      if decide (status = 200) then
        Some (w, json_or_envelope "Success" response)
      else if decide (status = 201) then
        Some (w, json_or_envelope "Created" response)
      else if decide (status = 204) then
        Some (w, Ret (PDict [("message", PStr "No Content")]))
      else if decide (status = 401) then
        if decide (retry_count = max_retries settings) then
          match refresh_access_token w with
          | (w, Raise refresh_error) => Some (w, Raise (auth_failed refresh_error))
          | (w, Ret _) =>
              match retry w with
              | None => None
              | Some (w, Ret v) => Some (w, Ret v)
              | Some (w, Raise refresh_error) => Some (w, Raise (auth_failed refresh_error))
              end
          end
        else
          Some (w, Raise (new_exn AuthenticationError (FStr "Invalid or expired token")))
      else if decide (status = 429) then
        match retry_after_of response with
        | Raise e => Some (w, Raise e)
        | Ret retry_after =>
            if decide (retry_count > 0) then retry (sleep (seconds retry_after) w)
            else Some (w, Raise (new_exn RateLimitError (FStr "Rate limit exceeded")))
        end
      else if decide (400 <= status < 500) then
        Some (w, Raise (client_error response))
      else if decide (500 <= status < 600) then
        if decide (retry_count > 0) then
          let wait_time := (max_retries settings - retry_count + 1) * 2 in
          retry (sleep (seconds wait_time) w)
        else
          Some (w, Raise (new_APIError (FCat (FStr "Server error: ") (FInt status))
                            (Some status) None))
      else
        Some (w, Ret PNone)
  end.

(** The two [except] clauses of [request], applied to what the body of
    the [try] statement did. *)
Definition except_clauses (retry : World -> option (World * res pyval)) (retry_count : Z)
    (attempt : option (World * res pyval)) : option (World * res pyval) :=
  match attempt with
  | None => None
  | Some (w, Ret v) => Some (w, Ret v)
  | Some (w, Raise e) =>
      if isinstance e TimeoutError then
        (* except asyncio.TimeoutError *)
        if decide (retry_count > 0) then retry w
        else Some (w, Raise (new_exn NetworkError (FStr "Request timeout")))
      else
        (* except Exception as e *)
        if bool_decide (retry_count > 0)
           && negb (isinstance e AuthenticationError || isinstance e ValidationError)
        then retry (sleep (seconds 1) w)
        else Some (w, Raise (new_exn NetworkError (exn_str e)))
  end.

(** [request] with [retry_count] given; [fuel] bounds the depth of the
    recursion, and [None] means that it was too small. *)
Fixpoint request_fuel (fuel : nat) (a : request_args) (retry_count : Z) (w : World)
    : option (World * res pyval) :=
  match fuel with
  | O => None
  | S fuel' =>
      let retry := request_fuel fuel' a (retry_count - 1) in
      let w := _handle_rate_limit w in
      let url := request_url a in
      match get_async_auth_headers w with
      | (w, Raise e) => Some (w, Raise e)
      | (w, Ret auth_headers) =>
          let request_headers :=
            match extra_headers a with
            | Some h => h ∪ auth_headers
            | None => auth_headers
            end in
          let k := http_calls w in
          let w := emit (EvRequest (method a) url) (set_http_calls (S k) w) in
          except_clauses retry retry_count
            (try_body retry retry_count (admin_api k (method a) url) w)
      end
  end.

(** Fuel that is always enough (see [request_fuel_enough]). *)
Definition request_depth (retry_count : Z) : nat := S (S (Z.to_nat retry_count)).

(** [request]: [retry_count] defaults to [settings.max_retries]. *)
Definition request (a : request_args) (retry_count : option Z) (w : World)
    : option (World * res pyval) :=
  let retry_count := default (max_retries settings) retry_count in
  request_fuel (request_depth retry_count) a retry_count w.

(** Both lookups of the access token find the record [data]. *)
Definition sees_access (data : pydict) (w : World) : Prop :=
  lookup_record "access" w = Some data /\ lookup_info_record "access" w = Some data.

(** [n] calls of [_handle_rate_limit] in a row. *)
Fixpoint handle_rate_limit_times (n : nat) (w : World) : World :=
  match n with
  | O => w
  | S n' => _handle_rate_limit (handle_rate_limit_times n' w)
  end.

End Hub.

(** ** The rest of the three classes, and their callers *)

(** Two worlds with the same token stores. *)
Definition same_stores (w w' : World) : Prop :=
  redis w' = redis w /\ token_file w' = token_file w.

(** The part of the world that belongs to the client: the number of HTTP
    attempts and the two fields of the rate limit window. *)
Definition client_state (w : World) : nat * option Z * Z :=
  (http_calls w, _rate_limit_reset w, _requests_this_minute w).


Section HubMore.

Context {env : Env}.

(** *** src/core/token_manager.py, continued *)

(** [TokenManager.refresh_token]: read the secret and save it again with
    the new lifetime. *)
Definition refresh_token (token_type : string) (new_expires_in : Z) (w : World)
    : World * bool :=
  let '(w, token) := get_token token_type w in
  match token with
  | Some (String c rest as token) => save_token token_type token new_expires_in None w
  | _ => (w, false)
  end.

(** *** src/core/auth_manager.py, continued *)

Definition exchange_failed (what : fstring) : exn :=
  new_exn AuthenticationError (FCat (FStr "Token exchange failed: ") what).

Definition exchange_code_for_token (authorization_code : string) (w : World)
    : World * res token_data :=
  let k := token_posts w in
  let w := emit (EvTokenPost "authorization_code") (set_token_posts (S k) w) in
  match token_endpoint k "authorization_code" authorization_code with
  | PostStatusError status _ =>
      (* except httpx.HTTPStatusError *)
      (w, Raise (exchange_failed (FInt status)))
  | PostRaises e =>
      (* except Exception *)
      (w, Raise (exchange_failed (exn_str e)))
  | PostOk (Raise e) => (w, Raise (exchange_failed (exn_str e)))
  | PostOk (Ret td) => (_save_tokens td w, Ret td)
  end.

(** [get_auth_headers], the synchronous variant: no refresh. *)
Definition get_auth_headers (w : World) : World * res (gmap string string) :=
  let '(w, access_token) := get_token "access" w in
  match access_token with
  | Some (String c rest as access_token) =>
      (w, Ret {[ "Authorization" := String.app "Bearer " access_token;
                 "Content-Type" := "application/json";
                 "X-Cafe24-Api-Version" := api_version settings ]})
  | _ => (w, Raise (new_exn AuthenticationError (FStr "No access token available")))
  end.

(** [is_authenticated]: [token is not None]. *)
Definition is_authenticated (w : World) : World * bool :=
  let '(w, token) := get_token "access" w in
  (w, match token with Some _ => true | None => false end).

Definition logout (w : World) : World := clear_all w.

(** *** src/api/client.py: the window seen over a whole call *)



End HubMore.

(** ** The callers of the pipeline

    [ping] and [get_api_info] of [Cafe24Client], and [ProductAPI] of
    [src/api/products.py].  They work on the decoded JSON with the dynamic
    operations of Python, written out here with the exceptions they raise
    on values of the wrong type (messages as CPython 3.12 words them). *)

(** [r >>= f] on outcomes. *)
Definition res_bind {A B : Type} (r : res A) (f : A -> res B) : res B :=
  match r with
  | Ret a => f a
  | Raise e => Raise e
  end.

(** An exception that is none of the two classes that the callers tell
    apart. *)
Definition builtin_error (e : exn) : Prop :=
  isinstance e APIError = false /\ isinstance e ValidationError = false.

Definition type_error (text : string) : exn :=
  new_exn (ForeignError "TypeError") (FStr text).

Definition not_subscriptable (v : pyval) : exn :=
  type_error (String.app "'" (String.app (type_name v) "' object is not subscriptable")).

(** A byte [10xxxxxx], which continues a character of a UTF-8 string. *)
Definition is_continuation (c : ascii) : bool :=
  match c with
  | Ascii _ _ _ _ _ _ b6 b7 => b7 && negb b6
  end.

(** [len(s)] and [list(s)] on a string: by characters, not bytes. *)
Fixpoint str_len (s : string) : Z :=
  match s with
  | EmptyString => 0
  | String c rest => (if is_continuation c then 0 else 1) + str_len rest
  end.

Definition starts_in_character (s : string) : bool :=
  match s with
  | String c _ => is_continuation c
  | EmptyString => false
  end.

Fixpoint str_chars (s : string) : list string :=
  match s with
  | EmptyString => []
  | String c rest =>
      match str_chars rest with
      | first :: others =>
          if starts_in_character rest then String c first :: others
          else String c EmptyString :: first :: others
      | [] => [String c EmptyString]
      end
  end.

(** [d[k] = v] and [d.update(other)] on the items of a dictionary. *)
Fixpoint items_set (k : string) (v : pyval) (items : list (string * pyval))
    : list (string * pyval) :=
  match items with
  | [] => [(k, v)]
  | (k', v') :: rest =>
      if decide (k' = k) then (k, v) :: rest else (k', v') :: items_set k v rest
  end.

Definition items_update (items other : list (string * pyval)) : list (string * pyval) :=
  fold_left (fun acc kv => items_set kv.1 kv.2 acc) other items.

(** [','.join(fields)] *)
Fixpoint join_comma (fields : list string) : string :=
  match fields with
  | [] => EmptyString
  | [f] => f
  | f :: rest => String.app f (String.app "," (join_comma rest))
  end.

Section Callers.

Context {env : Env}.

(** [datetime.isoformat], for the text of the strings that [PIso] stands
    for, and [settings.cafe24_mall_id]. *)
Variable isoformat : Z -> string.
Variable cafe24_mall_id : string.

Definition py_text (v : pyval) : option string :=
  match v with
  | PStr s => Some s
  | PIso t => Some (isoformat t)
  | _ => None
  end.

(** [bool(v)] *)
Definition py_bool (v : pyval) : bool :=
  match v with
  | PNone => false
  | PBool b => b
  | PInt n => bool_decide (n <> 0)
  | PStr s => bool_decide (s <> EmptyString)
  | PIso t => bool_decide (isoformat t <> EmptyString)
  | PList l => bool_decide (l <> [])
  | PDict items => match items with [] => false | _ :: _ => true end
  end.

(** [len(v)] *)
Definition py_len (v : pyval) : res Z :=
  match v with
  | PStr s => Ret (str_len s)
  | PIso t => Ret (str_len (isoformat t))
  | PList l => Ret (Z.of_nat (length l))
  | PDict items => Ret (Z.of_nat (length items))
  | _ => Raise (type_error (String.app "object of type '"
                             (String.app (type_name v) "' has no len()")))
  end.

(** [list(v)], as [extend] iterates over [v]. *)
Definition py_iter (v : pyval) : res (list pyval) :=
  match v with
  | PStr s => Ret (PStr <$> str_chars s)
  | PIso t => Ret (PStr <$> str_chars (isoformat t))
  | PList l => Ret l
  | PDict items => Ret ((fun kv => PStr kv.1) <$> items)
  | _ => Raise (type_error (String.app "'"
                             (String.app (type_name v) "' object is not iterable")))
  end.

(** [k in v] for a string [k] *)
Definition py_contains (k : string) (v : pyval) : res bool :=
  match v with
  | PDict items => Ret (bool_decide (is_Some (items_get k items)))
  | PList l => Ret (existsb (fun x => bool_decide (py_text x = Some k)) l)
  | PStr s => Ret (bool_decide (is_Some (String.index 0 k s)))
  | PIso t => Ret (bool_decide (is_Some (String.index 0 k (isoformat t))))
  | _ => Raise (type_error (String.app "argument of type '"
                             (String.app (type_name v) "' is not iterable")))
  end.

(** [v[k]] for a string [k] *)
Definition py_getitem (v : pyval) (k : string) : res pyval :=
  match v with
  | PDict items =>
      match items_get k items with
      | Some x => Ret x
      | None => Raise (new_exn (ForeignError "KeyError")
                         (FStr (String.app "'" (String.app k "'"))))
      end
  | PList _ => Raise (type_error "list indices must be integers or slices, not str")
  | PStr _ | PIso _ => Raise (type_error "string indices must be integers, not 'str'")
  | _ => Raise (not_subscriptable v)
  end.

(** [v[0]] *)
Definition py_first (v : pyval) : res pyval :=
  let first_char (s : string) :=
    match str_chars s with
    | c :: _ => Ret (PStr c)
    | [] => Raise (new_exn (ForeignError "IndexError") (FStr "string index out of range"))
    end in
  match v with
  | PList (x :: _) => Ret x
  | PList [] => Raise (new_exn (ForeignError "IndexError") (FStr "list index out of range"))
  | PStr s => first_char s
  | PIso t => first_char (isoformat t)
  | PDict _ => Raise (new_exn (ForeignError "KeyError") (FStr "0"))
  | _ => Raise (not_subscriptable v)
  end.

(** [v.get(k, default)] *)
Definition py_get (v : pyval) (k : string) (default_value : pyval) : res pyval :=
  match v with
  | PDict items => Ret (default default_value (items_get k items))
  | _ => Raise (new_exn AttributeError
                  (FStr (String.app "'"
                           (String.app (type_name v) "' object has no attribute 'get'"))))
  end.

(** *** src/api/client.py, continued *)

(** The convenience verbs, with the default retry budget. *)
Definition client_get (endpoint : string) (params : option pyval)
    : World -> option (World * res pyval) :=
  request (mk_request_args "GET" endpoint params None None None) None.

Definition client_post (endpoint : string) (data json_data : option pyval)
    : World -> option (World * res pyval) :=
  request (mk_request_args "POST" endpoint None data json_data None) None.

Definition client_put (endpoint : string) (data json_data : option pyval)
    : World -> option (World * res pyval) :=
  request (mk_request_args "PUT" endpoint None data json_data None) None.

Definition client_patch (endpoint : string) (data json_data : option pyval)
    : World -> option (World * res pyval) :=
  request (mk_request_args "PATCH" endpoint None data json_data None) None.

Definition client_delete (endpoint : string) : World -> option (World * res pyval) :=
  request (mk_request_args "DELETE" endpoint None None None None) None.

(** [ping]: any exception, also one of [in], gives [False]. *)
Definition ping (w : World) : option (World * bool) :=
  match client_get "products" (Some (PDict [("limit", PInt 1)])) w with
  | None => None
  | Some (w, Raise _) => Some (w, false)
  | Some (w, Ret response) =>
      Some (w, match py_contains "products" response with
               | Ret true => true
               | Ret false =>
                   match py_contains "message" response with
                   | Ret b => b
                   | Raise _ => false
                   end
               | Raise _ => false
               end)
  end.

(** The two dictionaries that [get_api_info] returns. *)
Inductive api_info : Type :=
  | Connected (mall_id api_version base_url : string)
              (requests_per_minute current_count : Z)
  | NotConnected (error : fstring).

Definition get_api_info (w : World) : option (World * api_info) :=
  match client_get "products" (Some (PDict [("limit", PInt 1)])) w with
  | None => None
  | Some (w, Ret _) =>
      Some (w, Connected cafe24_mall_id (api_version settings) (cafe24_base_url settings)
                 100 (_requests_this_minute w))
  | Some (w, Raise e) => Some (w, NotConnected (exn_str e))
  end.

(** *** src/api/products.py *)

Definition api_failed (what : string) (e : exn) : exn :=
  new_APIError (FCat (FStr what) (exn_str e)) None None.

Definition get_products (limit offset : Z) (fields : option (list string))
    (filters : list (string * pyval)) (w : World) : option (World * res pyval) :=
  let params := [("limit", PInt (Z.min limit 500)); ("offset", PInt offset)] in
  let params :=
    match fields with
    | Some (f :: fs) => items_set "fields" (PStr (join_comma (f :: fs))) params
    | _ => params
    end in
  let params := items_update params filters in
  match client_get "products" (Some (PDict params)) w with
  | None => None
  | Some (w, outcome) =>
      let result :=
        res_bind outcome (fun response =>
        res_bind (py_get response "products" (PList [])) (fun products =>
        res_bind (py_len products) (fun count =>
        Ret (PDict [("products", products);
                    ("total_count", PInt count);
                    ("limit", PInt limit);
                    ("offset", PInt offset);
                    ("has_more", PBool (bool_decide (count = limit)))])))) in
      Some (w, match result with
               | Ret v => Ret v
               | Raise e => Raise (api_failed "Failed to retrieve products: " e)
               end)
  end.

(** The two [except] clauses of [get_product] and [get_product_variants]:
    a 404 carried by an [APIError] becomes [not_found]. *)
Definition except_not_found (not_found : pyval) (what : string) (outcome : res pyval)
    : res pyval :=
  match outcome with
  | Ret v => Ret v
  | Raise e =>
      if isinstance e APIError then
        if decide (exn_status_code e = Some 404) then Ret not_found else Raise e
      else Raise (api_failed what e)
  end.

Definition get_product (product_no : string) (w : World) : option (World * res pyval) :=
  match client_get (String.app "products/" product_no) None w with
  | None => None
  | Some (w, outcome) =>
      let body :=
        res_bind outcome (fun response =>
        res_bind (py_contains "product" response) (fun has_product =>
        if has_product then py_getitem response "product"
        else
          res_bind (py_contains "products" response) (fun has_products =>
          if has_products then
            res_bind (py_getitem response "products") (fun products =>
            if py_bool products then py_first products else Ret response)
          else Ret response))) in
      Some (w, except_not_found PNone "Failed to retrieve product: " body)
  end.

Definition get_product_variants (product_no : string) (w : World)
    : option (World * res pyval) :=
  match client_get (String.app "products/" (String.app product_no "/variants")) None w with
  | None => None
  | Some (w, outcome) =>
      let body :=
        res_bind outcome (fun response => py_get response "variants" (PList [])) in
      Some (w, except_not_found (PList []) "Failed to retrieve product variants: " body)
  end.

Definition update_product (product_no : string) (updates : pyval) (shop_no : Z) (w : World)
    : option (World * res bool) :=
  if py_bool updates then
    let request_data := PDict [("shop_no", PInt shop_no); ("request", updates)] in
    match client_put (String.app "products/" product_no) None (Some request_data) w with
    | None => None
    | Some (w, Ret _) => Some (w, Ret true)
    | Some (w, Raise e) => Some (w, Raise (api_failed "Failed to update product: " e))
    end
  else Some (w, Raise (new_exn ValidationError (FStr "No updates provided"))).

Definition update_product_stock (product_no : string) (stock_quantity shop_no : Z)
    : World -> option (World * res bool) :=
  update_product product_no (PDict [("stock_quantity", PStr (pretty stock_quantity))]) shop_no.

(** The loop of [get_all_products].  [progress_callback] answers whether
    it returned ([false]: it raised); [fuel] bounds the number of pages, and
    [None] means that it was too small. *)
Fixpoint get_all_products_loop (fuel : nat) (batch_size : Z) (fields : option (list string))
    (progress_callback : option (Z -> Z -> bool))
    (all_products : list pyval) (offset total_fetched : Z) (w : World)
    : option (World * list pyval) :=
  match fuel with
  | O => None
  | S fuel' =>
      match get_products batch_size offset fields [] w with
      | None => None
      | Some (w, Raise _) => Some (w, all_products)
      | Some (w, Ret result) =>
          match py_get result "products" (PList []) with
          | Raise _ => Some (w, all_products)
          | Ret products =>
              if py_bool products then
                match py_iter products with
                | Raise _ => Some (w, all_products)
                | Ret page =>
                    let all_products := all_products ++ page in
                    match py_len products with
                    | Raise _ => Some (w, all_products)
                    | Ret count =>
                        let total_fetched := total_fetched + count in
                        if match progress_callback with
                           | Some callback => callback total_fetched count
                           | None => true
                           end
                        then
                          if decide (count < batch_size) then Some (w, all_products)
                          else get_all_products_loop fuel' batch_size fields
                                 progress_callback all_products (offset + batch_size)
                                 total_fetched w
                        else Some (w, all_products)
                    end
                end
              else Some (w, all_products)
          end
      end
  end.

Definition get_all_products (fuel : nat) (batch_size : Z) (fields : option (list string))
    (progress_callback : option (Z -> Z -> bool)) (w : World)
    : option (World * list pyval) :=
  get_all_products_loop fuel batch_size fields progress_callback [] 0 0 w.

(** What the API serves to one run of the loop above, from [offset] on: the
    pages in order, each with the world after its call of [get_products].
    The run goes on after a page that is not empty and not shorter than
    [batch_size]; it ends with an empty or shorter page, or with a call that
    fails. *)
Inductive pages_served (batch_size : Z) (fields : option (list string))
    : Z -> World -> list (list pyval) -> World -> Prop :=
  | failed_page (offset : Z) (w w' : World) (e : exn) :
      get_products batch_size offset fields [] w = Some (w', Raise e) ->
      pages_served batch_size fields offset w [] w'
  | last_page (offset : Z) (w w' : World) (result : pyval) (page : list pyval) :
      get_products batch_size offset fields [] w = Some (w', Ret result) ->
      py_get result "products" (PList []) = Ret (PList page) ->
      page = [] \/ Z.of_nat (length page) < batch_size ->
      pages_served batch_size fields offset w [page] w'
  | full_page (offset : Z) (w w' w'' : World) (result : pyval) (page : list pyval)
              (pages : list (list pyval)) :
      get_products batch_size offset fields [] w = Some (w', Ret result) ->
      py_get result "products" (PList []) = Ret (PList page) ->
      page <> [] ->
      batch_size <= Z.of_nat (length page) ->
      pages_served batch_size fields (offset + batch_size) w' pages w'' ->
      pages_served batch_size fields offset w (page :: pages) w''.

End Callers.

(** ** A concrete environment

    Used to run the definitions above on explicit inputs. *)

Definition demo_settings : Settings :=
  mk_settings "https://demo.cafe24api.com/api/v2" "client-id" "client-secret" "2024-06-01" 3.

(** A stand-in for Fernet: the key, one byte of IV, then the data. *)
Definition demo_encrypt (key : string) (iv : nat) (data : string) : string :=
  String.app key (String (ascii_of_nat iv) data).

Fixpoint strip_prefix (p s : string) : option string :=
  match p with
  | EmptyString => Some s
  | String a p' =>
      match s with
      | String b s' => if decide (a = b) then strip_prefix p' s' else None
      | EmptyString => None
      end
  end.

Definition demo_decrypt (key : string) (data : string) : option string :=
  match strip_prefix key data with
  | Some (String _ plain) => Some plain
  | _ => None
  end.

(** [int] on strings of decimal digits. *)
Definition digit_of (c : ascii) : option Z :=
  let n := Z.of_nat (nat_of_ascii c) in
  if decide (48 <= n <= 57) then Some (n - 48) else None.

Fixpoint demo_int_from (acc : Z) (s : string) : option Z :=
  match s with
  | EmptyString => Some acc
  | String c rest =>
      match digit_of c with
      | Some d => demo_int_from (10 * acc + d) rest
      | None => None
      end
  end.

Definition demo_int (s : string) : option Z :=
  match s with
  | EmptyString => None
  | _ => demo_int_from 0 s
  end.

(** 2023-11-14 22:13:20 on the clock. *)
Definition demo_epoch : Z := seconds 1700000000.

(** An environment whose clock stands still at [t], with the given
    endpoints. *)
Definition demo_env_at (t : Z) (token_ep : nat -> post_outcome) (api : nat -> http_outcome)
    : Env :=
  mk_env demo_settings (fun _ => t) "k3y" demo_encrypt demo_decrypt
         (fun k _ _ => token_ep k) (fun k _ _ => api k) demo_int.

Definition demo_env : (nat -> post_outcome) -> (nat -> http_outcome) -> Env :=
  demo_env_at demo_epoch.

(** The same with a clock that advances by [step] at each reading. *)
Definition demo_env_clock (step : Z) : Env :=
  mk_env demo_settings (fun n => demo_epoch + Z.of_nat n * step) "k3y"
         demo_encrypt demo_decrypt
         (fun _ _ _ => PostStatusError 400 "invalid_grant")
         (fun _ _ _ => HttpResponse (mk_response 200 ∅ "" JsonDecodeError)) demo_int.

(** A fresh client and an empty store without Redis, and the same with
    Redis. *)
Definition fresh_world : World := mk_world 0 0 None ∅ 0 0 None 0 [].
Definition fresh_world_redis : World := mk_world 0 0 (Some ∅) ∅ 0 0 None 0 [].

Definition token_ok : post_outcome :=
  PostOk (Ret (mk_token_data (Some "tok2") (Some 7200) (Some "Bearer") None None)).

Definition always (status : Z) : nat -> http_outcome :=
  fun _ => HttpResponse (mk_response status ∅ "body" JsonDecodeError).

(** The store after a code exchange that answered
    [{access_token: "tok1", expires_in: 7200, refresh_token: "ref1"}]. *)
Definition logged_in (w : World) : World :=
  _save_tokens (env := demo_env (fun _ => token_ok) (always 200))
    (mk_token_data (Some "tok1") (Some 7200) (Some "Bearer") None (Some "ref1")) w.

Definition products_args : request_args :=
  mk_request_args "GET" "/products" None None None None.


(** The transport fails before any response arrives. *)
Definition connect_error : exn :=
  new_exn (ForeignError "httpx.ConnectError") (FStr "All connection attempts failed").

(** What [json.loads] raises on a body that is not UTF-8, such as the
    single byte [0xff]; every attempt is answered 200 with such a body. *)
Definition not_utf8 : exn :=
  new_exn (ForeignError "UnicodeDecodeError")
    (FStr "'utf-8' codec can't decode byte 0xff in position 0: invalid start byte").

Definition undecodable (k : nat) : http_outcome :=
  HttpResponse (mk_response 200 ∅ "?" (JsonRaises not_utf8)).


(** A 429 with [Retry-After: 5], then 200. *)
Definition throttled_once (k : nat) : http_outcome :=
  match k with
  | O => HttpResponse (mk_response 429 {[ "Retry-After" := "5" ]} "" JsonDecodeError)
  | S _ => HttpResponse (mk_response 200 ∅ "" (JsonValue (PDict [("products", PList [])])))
  end.

(** What is observed of a call of [request]: the number of HTTP attempts,
    the number of POSTs to the token endpoint, the sleeps in order, and the
    result. *)
Definition observe (r : option (World * res pyval))
    : option (nat * nat * list Z * res pyval) :=
  match r with
  | Some (w, result) => Some (http_calls w, token_posts w, sleeps (trace w), result)
  | None => None
  end.

(** The stand-in for [datetime.isoformat] in the runs below; no response
    of theirs holds a date. *)
Definition demo_isoformat (t : Z) : string := "2023-11-14T22:13:20".

(** A shop of three products, served two to a page; a fourth call fails. *)
Definition product (n : Z) : pyval := PDict [("product_no", PInt n)].

Definition three_products (k : nat) : http_outcome :=
  match k with
  | 0%nat => HttpResponse (mk_response 200 ∅ ""
               (JsonValue (PDict [("products", PList [product 1; product 2])])))
  | 1%nat => HttpResponse (mk_response 200 ∅ ""
               (JsonValue (PDict [("products", PList [product 3])])))
  | _ => HttpRaises connect_error
  end.

(** * Properties *)

Section Properties.

Context {env : Env}.

(** ** The self-throttle of [Cafe24Client] *)

(** One call seen from the window it finds: the three ways through
    [throttle]. *)
Lemma throttle_new_window (w : World) :
  (_rate_limit_reset w = None
   \/ exists r, _rate_limit_reset w = Some r /\ clock (ticks w) - r >= seconds 60) ->
  throttle w = set_rate_limit (Some (clock (ticks w))) 0 (set_ticks (S (ticks w)) w).
Proof.
  intros Hw. unfold throttle, now. cbn.
  destruct (_rate_limit_reset w) as [r|] eqn:Hr.
  - destruct Hw as [Hw | (r' & Hr' & Hge)]; [discriminate|].
    injection Hr' as <-.
    destruct (decide (clock (ticks w) - r >= seconds 60)); [|lia].
    destruct (decide (0 >= 95)); [lia|]. reflexivity.
  - destruct (decide (0 >= 95)); [lia|]. reflexivity.
Qed.

Lemma throttle_same_window (w : World) (r : Z) :
  _rate_limit_reset w = Some r ->
  clock (ticks w) - r < seconds 60 ->
  _requests_this_minute w < 95 ->
  throttle w = set_rate_limit (Some r) (_requests_this_minute w) (set_ticks (S (ticks w)) w).
Proof.
  intros Hr Hlt Hc. unfold throttle, now. cbn. rewrite Hr.
  destruct (decide (clock (ticks w) - r >= seconds 60)); [lia|].
  destruct (decide (_requests_this_minute w >= 95)); [lia|]. reflexivity.
Qed.

Lemma throttle_sleeps (w : World) (r : Z) :
  _rate_limit_reset w = Some r ->
  clock (ticks w) - r < seconds 60 ->
  _requests_this_minute w >= 95 ->
  throttle w =
    set_rate_limit (Some (clock (S (ticks w)))) 0
      (set_ticks (S (S (ticks w)))
         (sleep (seconds 60 - (clock (ticks w) - r)) w)).
Proof.
  intros Hr Hlt Hc. unfold throttle, now. cbn. rewrite Hr.
  destruct (decide (clock (ticks w) - r >= seconds 60)); [lia|].
  destruct (decide (_requests_this_minute w >= 95)); [|lia].
  destruct (decide (seconds 60 - (clock (ticks w) - r) > 0)); [|lia].
  reflexivity.
Qed.

(** After [throttle] the counter is below the threshold, whatever the
    clock says. *)
Lemma throttle_count_bound (w : World) :
  0 <= _requests_this_minute w ->
  0 <= _requests_this_minute (throttle w) < 95.
Proof.
  intros Hc. unfold throttle, now. cbn.
  destruct (_rate_limit_reset w) as [r|] eqn:Hr.
  - destruct (decide (clock (ticks w) - r >= seconds 60)).
    + destruct (decide (0 >= 95)); [lia|]. cbn. lia.
    + destruct (decide (_requests_this_minute w >= 95)).
      * destruct (decide (seconds 60 - (clock (ticks w) - r) > 0)); [|lia].
        cbn. lia.
      * cbn. lia.
  - destruct (decide (0 >= 95)); [lia|]. cbn. lia.
Qed.

Lemma handle_rate_limit_count_bound (w : World) :
  0 <= _requests_this_minute w ->
  1 <= _requests_this_minute (_handle_rate_limit w) <= 95.
Proof.
  intros Hc. pose proof (throttle_count_bound w Hc).
  unfold _handle_rate_limit, set_rate_limit. cbn [_requests_this_minute]. lia.
Qed.

(** From a fresh client, [n] calls that all read the clock inside the
    first window are all counted in it, without any sleep. *)
Lemma handle_rate_limit_times_in_window (w0 : World) (n : nat) :
  _rate_limit_reset w0 = None ->
  _requests_this_minute w0 = 0 ->
  (forall i, (i <= n)%nat -> clock (ticks w0 + i) - clock (ticks w0) < seconds 60) ->
  (S n <= 95)%nat ->
  let w := handle_rate_limit_times (S n) w0 in
  _rate_limit_reset w = Some (clock (ticks w0))
  /\ _requests_this_minute w = Z.of_nat (S n)
  /\ ticks w = (ticks w0 + S n)%nat
  /\ trace w = trace w0.
Proof.
  intros Hr Hc. induction n as [|n IH]; intros Hclk Hn.
  - change (handle_rate_limit_times 1 w0) with (_handle_rate_limit w0).
    cbv zeta. unfold _handle_rate_limit.
    rewrite throttle_new_window by auto.
    cbn. repeat split; try f_equal; lia.
  - destruct IH as (IHr & IHc & IHt & IHtr); [intros; apply Hclk; lia | lia |].
    set (w := handle_rate_limit_times (S n) w0) in *.
    change (handle_rate_limit_times (S (S n)) w0) with (_handle_rate_limit w).
    clearbody w. cbv zeta. unfold _handle_rate_limit.
    rewrite (throttle_same_window w (clock (ticks w0))).
    + cbn. rewrite IHc, IHt, IHtr. repeat split; try f_equal; lia.
    + assumption.
    + rewrite IHt. apply Hclk. lia.
    + lia.
Qed.

(** In any window, calls that read the clock inside it are counted in it
    without any sleep, as long as the counter stays at 95 or below. *)
Lemma handle_rate_limit_times_counted (w0 : World) (r : Z) (n : nat) :
  _rate_limit_reset w0 = Some r ->
  _requests_this_minute w0 + Z.of_nat n <= 95 ->
  (forall i, (i < n)%nat -> clock (ticks w0 + i) - r < seconds 60) ->
  _rate_limit_reset (handle_rate_limit_times n w0) = Some r
  /\ _requests_this_minute (handle_rate_limit_times n w0)
     = _requests_this_minute w0 + Z.of_nat n
  /\ ticks (handle_rate_limit_times n w0) = (ticks w0 + n)%nat
  /\ trace (handle_rate_limit_times n w0) = trace w0.
Proof.
  intros Hr. induction n as [|n IH]; intros Hc Hclk.
  - cbn. repeat split; try assumption; lia.
  - destruct IH as (IHr & IHc & IHt & IHtr); [lia | intros; apply Hclk; lia |].
    set (w := handle_rate_limit_times n w0) in *.
    change (handle_rate_limit_times (S n) w0) with (_handle_rate_limit w).
    clearbody w. unfold _handle_rate_limit.
    rewrite (throttle_same_window w r).
    + cbn [_rate_limit_reset _requests_this_minute ticks trace set_rate_limit set_ticks].
      rewrite IHc, IHt, IHtr. repeat split; lia.
    + assumption.
    + rewrite IHt. apply Hclk. lia.
    + lia.
Qed.

(** C5. Self-throttle of the request pipeline, as the code has it.
    (a) In any window, requests that read the clock less than 60 seconds
    after its start are counted in it without any sleep until 95 are
    counted (part 5), and the next such request sleeps for the remainder of
    the window (60 s minus the time since its start), has the counter set
    to 0, starts a new window at the clock reading after the sleep and is
    counted as the first request of it (part 6); part 1 is the run of 96
    requests of a fresh client.  (b) The counter never exceeds 95, hence
    never the ceiling of 100 requests per minute, after any call and after
    any number of calls, whatever the clock (parts 2 and 3).  (c) The
    window is reset by requests, not by a timer: the first request of a
    client opens a window at its clock reading (part 8); a request that
    reads the clock 60 seconds or more after the start of the window opens
    a new window at that reading with the counter at 1, whatever the
    counter was, and a request inside the window below the threshold leaves
    the start where it is and adds one to the counter (part 4); no call
    moves the start of the window otherwise (part 7).  So a window lasts
    until the first request that comes 60 seconds or more after its start,
    however late that is. *)
Theorem self_throttle_window :
  (forall w0 : World,
     _rate_limit_reset w0 = None ->
     _requests_this_minute w0 = 0 ->
     (forall i, (i <= 95)%nat -> clock (ticks w0 + i) - clock (ticks w0) < seconds 60) ->
     let w95 := handle_rate_limit_times 95 w0 in
     let w96 := _handle_rate_limit w95 in
     _requests_this_minute w95 = 95
     /\ trace w95 = trace w0
     /\ trace w96
        = EvSleep (seconds 60 - (clock (ticks w0 + 95) - clock (ticks w0))) :: trace w0
     /\ _requests_this_minute (throttle w95) = 0
     /\ _rate_limit_reset w96 = Some (clock (ticks w0 + 96))
     /\ _requests_this_minute w96 = 1)
  /\ (forall w : World,
        0 <= _requests_this_minute w ->
        1 <= _requests_this_minute (_handle_rate_limit w) <= 95)
  /\ (forall (n : nat) (w0 : World),
        _requests_this_minute w0 = 0 ->
        0 <= _requests_this_minute (handle_rate_limit_times n w0) <= 95
        /\ 95 < 100)
  /\ (forall (w : World) (r : Z),
        _rate_limit_reset w = Some r ->
        (clock (ticks w) - r < seconds 60 ->
         _requests_this_minute w < 95 ->
         trace (_handle_rate_limit w) = trace w
         /\ _rate_limit_reset (_handle_rate_limit w) = Some r
         /\ _requests_this_minute (_handle_rate_limit w) = _requests_this_minute w + 1)
        /\ (clock (ticks w) - r >= seconds 60 ->
            trace (_handle_rate_limit w) = trace w
            /\ _rate_limit_reset (_handle_rate_limit w) = Some (clock (ticks w))
            /\ _requests_this_minute (_handle_rate_limit w) = 1))
  /\ (forall (w0 : World) (r : Z) (n : nat),
        _rate_limit_reset w0 = Some r ->
        _requests_this_minute w0 + Z.of_nat n <= 95 ->
        (forall i, (i < n)%nat -> clock (ticks w0 + i) - r < seconds 60) ->
        _rate_limit_reset (handle_rate_limit_times n w0) = Some r
        /\ _requests_this_minute (handle_rate_limit_times n w0)
           = _requests_this_minute w0 + Z.of_nat n
        /\ trace (handle_rate_limit_times n w0) = trace w0)
  /\ (forall (w : World) (r : Z),
        _rate_limit_reset w = Some r ->
        _requests_this_minute w >= 95 ->
        clock (ticks w) - r < seconds 60 ->
        trace (_handle_rate_limit w)
        = EvSleep (seconds 60 - (clock (ticks w) - r)) :: trace w
        /\ _requests_this_minute (throttle w) = 0
        /\ _rate_limit_reset (_handle_rate_limit w) = Some (clock (S (ticks w)))
        /\ _requests_this_minute (_handle_rate_limit w) = 1)
  /\ (forall (w : World) (r : Z),
        _rate_limit_reset w = Some r ->
        _rate_limit_reset (_handle_rate_limit w) = Some r
        \/ clock (ticks w) - r >= seconds 60
        \/ _requests_this_minute w >= 95)
  /\ (forall w : World,
        _rate_limit_reset w = None ->
        trace (_handle_rate_limit w) = trace w
        /\ _rate_limit_reset (_handle_rate_limit w) = Some (clock (ticks w))
        /\ _requests_this_minute (_handle_rate_limit w) = 1).
Proof.
  split; [|split; [|split; [|split; [|split; [|split; [|split]]]]]].
  - intros w0 Hr Hc Hclk.
    destruct (handle_rate_limit_times_in_window w0 94 Hr Hc) as (Wr & Wc & Wt & Wtr);
      [intros; apply Hclk; lia | lia |].
    set (w95 := handle_rate_limit_times 95 w0) in *. clearbody w95.
    cbv zeta. unfold _handle_rate_limit.
    rewrite (throttle_sleeps w95 (clock (ticks w0))).
    + cbn. rewrite Wt, Wtr.
      replace (S (ticks w0 + 95)) with (ticks w0 + 96)%nat by lia.
      repeat split; try assumption; try reflexivity.
    + assumption.
    + rewrite Wt. apply Hclk. lia.
    + lia.
  - exact handle_rate_limit_count_bound.
  - intros n w0 Hc. destruct n as [|n].
    + cbn. lia.
    + split; [|lia].
      change (handle_rate_limit_times (S n) w0)
        with (_handle_rate_limit (handle_rate_limit_times n w0)).
      assert (0 <= _requests_this_minute (handle_rate_limit_times n w0)) as Hn.
      { revert Hc. induction n as [|n IH]; intros Hc; [cbn; lia|].
        change (handle_rate_limit_times (S n) w0)
          with (_handle_rate_limit (handle_rate_limit_times n w0)).
        pose proof (handle_rate_limit_count_bound _ (IH Hc)). lia. }
      pose proof (handle_rate_limit_count_bound _ Hn). lia.
  - intros w r Hr. unfold _handle_rate_limit. split.
    + intros Hlt Hc. rewrite (throttle_same_window w r) by assumption. cbn.
      repeat split; reflexivity.
    + intros Hge. rewrite throttle_new_window by eauto. cbn.
      repeat split; try reflexivity; lia.
  - intros w0 r n Hr Hc Hclk.
    destruct (handle_rate_limit_times_counted w0 r n Hr Hc Hclk) as (H1 & H2 & _ & H4).
    repeat split; assumption.
  - intros w r Hr Hc Hlt. unfold _handle_rate_limit.
    rewrite (throttle_sleeps w r) by assumption. cbn.
    repeat split; reflexivity.
  - intros w r Hr.
    destruct (decide (clock (ticks w) - r >= seconds 60)) as [Hge|Hlt]; [auto|].
    destruct (decide (_requests_this_minute w >= 95)) as [Hc|Hc]; [auto|].
    left. unfold _handle_rate_limit.
    rewrite (throttle_same_window w r) by (assumption || lia). reflexivity.
  - intros w Hr. unfold _handle_rate_limit.
    rewrite throttle_new_window by auto. cbn. repeat split; try reflexivity; lia.
Qed.

(** ** The token store *)

(** A record with an expiry date is not the empty dictionary. *)
Lemma expires_at_of_nonempty (data : pydict) (t : Z) :
  expires_at_of data = Some t -> data <> ∅.
Proof. intros H ->. unfold expires_at_of in H. rewrite lookup_empty in H. discriminate. Qed.

Lemma delete_token_gone (token_type : string) (w : World) :
  token_file (delete_token token_type w) !! token_type = None
  /\ (forall r, redis (delete_token token_type w) = Some r ->
               r !! redis_key token_type = None)
  /\ lookup_record token_type (delete_token token_type w) = None.
Proof.
  assert (token_file (delete_token token_type w) !! token_type = None
          /\ (forall r, redis (delete_token token_type w) = Some r ->
                       r !! redis_key token_type = None)) as [Hf Hr].
  { unfold delete_token, _load_all_tokens, _save_all_tokens.
    destruct (redis w) as [r|] eqn:Hr; cbn.
    - destruct (token_file w !! token_type) eqn:Hf; cbn.
      + split; [apply lookup_delete_eq|]. intros r' [= <-]. apply lookup_delete_eq.
      + split; [assumption|]. intros r' [= <-]. apply lookup_delete_eq.
    - destruct (token_file w !! token_type) eqn:Hf; cbn.
      + split; [apply lookup_delete_eq|]. rewrite Hr. discriminate.
      + split; [assumption|]. rewrite Hr. discriminate. }
  repeat split; try assumption.
  unfold lookup_record, _load_from_file, _load_all_tokens.
  destruct (redis (delete_token token_type w)) as [r|]; [|assumption].
  rewrite (Hr r eq_refl). cbn. assumption.
Qed.

(** What [get_token] does with the record it finds, by its expiry date. *)
Lemma get_token_lazy_expiry_aux
    (token_type : string) (w : World) (data : pydict) (expires_at : Z) :
  lookup_record token_type w = Some data ->
  expires_at_of data = Some expires_at ->
  (clock (ticks w) > expires_at ->
     get_token token_type w = (delete_token token_type (set_ticks (S (ticks w)) w), None))
  /\ (clock (ticks w) <= expires_at ->
     forall ciphertext : string,
       data !! "token" = Some (PStr ciphertext) ->
       get_token token_type w = (set_ticks (S (ticks w)) w, decrypt ciphertext)).
Proof.
  intros Hlook Hexp.
  pose proof (expires_at_of_nonempty _ _ Hexp) as Hne.
  unfold get_token. rewrite Hlook.
  destruct (decide (data = ∅)) as [?|_]; [contradiction|].
  rewrite Hexp. unfold now.
  destruct (decide (clock (ticks w) > expires_at)) as [Hgt|Hle]; split; try lia.
  - reflexivity.
  - intros _ ciphertext Htok. rewrite Htok. reflexivity.
Qed.

(** C7. Lazy expiry on lookup.  Let [data] be the record that a lookup of
    [token_type] finds (Redis first, then the file) and [expires_at] its
    expiry date.  If the clock has passed [expires_at], [get_token] returns
    [None] and afterwards neither the file nor Redis holds a record for
    [token_type].  Otherwise [get_token] deletes nothing (both stores are
    as before) and returns the decryption of the stored secret. *)
Theorem get_token_lazy_expiry
    (token_type : string) (w : World) (data : pydict) (expires_at : Z) :
  lookup_record token_type w = Some data ->
  expires_at_of data = Some expires_at ->
  (clock (ticks w) > expires_at ->
     (get_token token_type w).2 = None
     /\ token_file (get_token token_type w).1 !! token_type = None
     /\ (forall r, redis (get_token token_type w).1 = Some r ->
                  r !! redis_key token_type = None)
     /\ lookup_record token_type (get_token token_type w).1 = None)
  /\ (clock (ticks w) <= expires_at ->
     forall ciphertext : string,
       data !! "token" = Some (PStr ciphertext) ->
       (get_token token_type w).2 = decrypt ciphertext
       /\ token_file (get_token token_type w).1 = token_file w
       /\ redis (get_token token_type w).1 = redis w).
Proof.
  intros Hlook Hexp.
  destruct (get_token_lazy_expiry_aux _ _ _ _ Hlook Hexp) as [Hdead Hlive].
  split.
  - intros Hgt. rewrite (Hdead Hgt). cbn [fst snd].
    split; [reflexivity|]. apply delete_token_gone.
  - intros Hle ciphertext Htok. rewrite (Hlive Hle _ Htok). cbn. auto.
Qed.

(** The record that [save_token] writes. *)
Lemma save_token_stores
    (token_type token : string) (expires_in : Z) (additional_data : option pydict)
    (w w' : World) :
  save_token token_type token expires_in additional_data w = (w', true) ->
  exists data : pydict,
    token_file w' !! token_type = Some data
    /\ (forall r, redis w' = Some r ->
                 r !! redis_key token_type = Some (data, expires_in))
    /\ data !! "token" = Some (PStr (fernet_encrypt fernet_key (encryptions w) token))
    /\ ticks w' = S (S (ticks w))
    /\ ((default ∅ additional_data : pydict) !! "expires_at" = None ->
        expires_at_of data = Some (clock (ticks w) + seconds expires_in)).
Proof.
  unfold save_token, now, encrypt, _save_to_file, _save_all_tokens, _load_all_tokens.
  cbn. unfold datetime_add.
  destruct (decide (datetime_min <= clock (ticks w) + seconds expires_in <= datetime_max));
    [|discriminate].
  set (base := ({[ "token" := PStr token;
                   "expires_at" := PIso (clock (ticks w) + seconds expires_in);
                   "created_at" := PIso (clock (S (ticks w)));
                   "type" := PStr token_type ]} : pydict)).
  set (merged := match additional_data with
                 | Some extra => if decide (extra = ∅) then base else extra ∪ base
                 | None => base
                 end).
  assert ((default ∅ additional_data : pydict) !! "expires_at" = None ->
          merged !! "expires_at" = Some (PIso (clock (ticks w) + seconds expires_in)))
    as Hmerged.
  { intros Hex. subst merged. destruct additional_data as [extra|]; cbn in Hex.
    - destruct (decide (extra = ∅)); [reflexivity|].
      rewrite lookup_union, Hex. reflexivity.
    - reflexivity. }
  set (data := <["token" := PStr (fernet_encrypt fernet_key (encryptions w) token)]> merged).
  assert (data !! "token" = Some (PStr (fernet_encrypt fernet_key (encryptions w) token)))
    as Htok by apply lookup_insert_eq.
  assert ((default ∅ additional_data : pydict) !! "expires_at" = None ->
          expires_at_of data = Some (clock (ticks w) + seconds expires_in)) as Hexp.
  { intros Hex. unfold expires_at_of. subst data.
    rewrite lookup_insert_ne by discriminate. rewrite (Hmerged Hex). reflexivity. }
  destruct (redis w) as [r|] eqn:Hr.
  - destruct (decide (0 < expires_in)); [|discriminate].
    intros [= <-]. exists data. cbn.
    split; [apply lookup_insert_eq|].
    split; [intros r' Hr'; apply (inj Some) in Hr'; subst r'; apply lookup_insert_eq|].
    auto.
  - intros [= <-]. exists data. cbn.
    split; [apply lookup_insert_eq|].
    split; [rewrite Hr; discriminate|]. auto.
Qed.

Section RoundTrip.

(** The cipher is Fernet from the [cryptography] package; what the code
    relies on is that it reads back its own output. *)
Hypothesis fernet_round_trip :
  forall (key : string) (iv : nat) (data : string),
    fernet_decrypt key (fernet_encrypt key iv data) = Some data.

(** C6. Round trip through the store.  With a cipher that decrypts what it
    encrypted under the same key, every successful [save_token] leaves, in
    the file and (when there is a client) in Redis, a record whose
    ["token"] field is the ciphertext of the secret under the key of the
    instance, from which decryption gives the secret back; and a
    [get_token] that follows it, before the expiry date that [save_token]
    computed, returns the secret that was saved. *)
Theorem save_then_get_round_trip
    (token_type token : string) (expires_in : Z) (additional_data : option pydict)
    (w w' : World) :
  save_token token_type token expires_in additional_data w = (w', true) ->
  let ciphertext := fernet_encrypt fernet_key (encryptions w) token in
  decrypt ciphertext = Some token
  /\ (exists data : pydict,
        token_file w' !! token_type = Some data
        /\ (forall r, redis w' = Some r ->
                     r !! redis_key token_type = Some (data, expires_in))
        /\ data !! "token" = Some (PStr ciphertext))
  /\ ((default ∅ additional_data : pydict) !! "expires_at" = None ->
      clock (ticks w') <= clock (ticks w) + seconds expires_in ->
      (get_token token_type w').2 = Some token).
Proof.
  intros Hsave ciphertext.
  destruct (save_token_stores _ _ _ _ _ _ Hsave) as (data & Hfile & Hredis & Htok & _ & Hexp).
  split; [apply fernet_round_trip|].
  split; [exists data; auto|].
  intros Hextra Hclock.
  assert (lookup_record token_type w' = Some data) as Hlook.
  { pose proof (expires_at_of_nonempty _ _ (Hexp Hextra)) as Hne.
    unfold lookup_record, _load_from_file, _load_all_tokens.
    destruct (redis w') as [r|]; [|assumption].
    rewrite (Hredis r eq_refl). cbn.
    destruct (decide (data = ∅)); [contradiction | reflexivity]. }
  destruct (get_token_lazy_expiry_aux token_type w' data _ Hlook (Hexp Hextra)) as [_ Hlive].
  rewrite (Hlive Hclock _ Htok). apply fernet_round_trip.
Qed.

End RoundTrip.

(** ** The authentication manager *)

(** A lookup that finds no record returns [None] and changes nothing. *)
Lemma get_token_absent (token_type : string) (w : World) :
  lookup_record token_type w = None -> get_token token_type w = (w, None).
Proof. intros H. unfold get_token. rewrite H. reflexivity. Qed.

Lemma prefix_app (p s : string) : String.prefix p (String.app p s) = true.
Proof.
  induction p as [|a p IH]; [destruct s; reflexivity|].
  change (String.app (String a p) s) with (String a (String.app p s)).
  cbn. destruct (ascii_dec a a); [exact IH | contradiction].
Qed.

Lemma clear_all_empty (w : World) :
  token_file (clear_all w) = ∅
  /\ (forall r token_type, redis (clear_all w) = Some r ->
                          r !! redis_key token_type = None).
Proof.
  unfold clear_all. split.
  - destruct (redis w); reflexivity.
  - intros r' token_type. destruct (redis w) as [r|] eqn:Hr; cbn.
    + intros Hr'. apply (inj Some) in Hr'. subst r'.
      apply map_lookup_filter_None. right. intros x _. cbn. clear. intros H.
      unfold redis_key in H. rewrite prefix_app in H. exact H.
    + rewrite Hr. discriminate.
Qed.

(** The arithmetic of [int(td.total_seconds())]. *)
Lemma round_half_even_bounds (n d : Z) :
  0 < d -> n / d <= round_half_even n d <= n / d + 1.
Proof.
  intros Hd. unfold round_half_even. cbv zeta.
  repeat case_decide; try lia. destruct (Z.even (n / d)); lia.
Qed.

Lemma int_of_true_div_nonneg (a b : Z) : 0 <= a -> 0 < b -> 0 <= int_of_true_div a b.
Proof.
  intros Ha Hb. unfold int_of_true_div. case_decide; [lia|]. cbv zeta.
  assert (0 <= a / b) by (apply Z.div_pos; lia).
  case_decide.
  - apply Z.div_pos; [|apply Z.pow_pos_nonneg; lia].
    pose proof (round_half_even_bounds (a * 2 ^ (52 - Z.log2 (a / b))) b Hb).
    assert (0 <= a * 2 ^ (52 - Z.log2 (a / b)) / b); [|lia].
    apply Z.div_pos; [|lia]. apply Z.mul_nonneg_nonneg; [lia|].
    apply Z.pow_nonneg. lia.
  - apply Z.mul_nonneg_nonneg; [|apply Z.pow_nonneg; lia].
    assert (0 < b * 2 ^ (Z.log2 (a / b) - 52)) as Hd.
    { apply Z.mul_pos_pos; [lia|]. apply Z.pow_pos_nonneg; lia. }
    pose proof (round_half_even_bounds a _ Hd).
    assert (0 <= a / (b * 2 ^ (Z.log2 (a / b) - 52))); [|lia].
    apply Z.div_pos; lia.
Qed.

(** The float is not below an integer that the quotient reaches, as long
    as the integer has at most 53 bits. *)
Lemma int_of_true_div_lower (a b k : Z) :
  0 < b -> 0 <= k <= 2 ^ 52 -> k * b <= a -> k <= int_of_true_div a b.
Proof.
  intros Hb Hk Ha. unfold int_of_true_div.
  case_decide as Hlt.
  { assert (k = 0 \/ 1 <= k) as [->|Hk1] by lia; [lia|]. nia. }
  cbv zeta.
  assert (1 <= a / b) as Hq by (apply Z.div_le_lower_bound; lia).
  assert (k <= a / b) as Hkq by (apply Z.div_le_lower_bound; lia).
  pose proof (Z.log2_nonneg (a / b)) as He0.
  destruct (Z.log2_spec (a / b)) as [Hlo Hhi]; [lia|].
  set (e := Z.log2 (a / b)) in *.
  case_decide as He.
  - set (p := 2 ^ (52 - e)).
    assert (0 < p) as Hp by (apply Z.pow_pos_nonneg; lia).
    apply Z.div_le_lower_bound; [lia|].
    pose proof (round_half_even_bounds (a * p) b Hb) as [Hr _].
    assert (p * k <= a * p / b); [|lia].
    apply Z.div_le_lower_bound; [lia|]. nia.
  - assert (2 ^ 52 <= a / b) as Hbig.
    { eapply Z.le_trans; [|exact Hlo]. apply Z.pow_le_mono_r; lia. }
    set (p := 2 ^ (e - 52)).
    assert (0 < p) as Hp by (apply Z.pow_pos_nonneg; lia).
    assert (0 < b * p) as Hd by nia.
    pose proof (round_half_even_bounds a (b * p) Hd) as [Hr _].
    assert (2 ^ 52 <= a / (b * p)) as Hm.
    { apply Z.div_le_lower_bound; [lia|].
      assert (2 ^ e = 2 ^ 52 * p) as Hpow.
      { unfold p. rewrite <- Z.pow_add_r by lia. f_equal. lia. }
      assert (2 ^ e * b <= a); [|nia].
      pose proof (Z.mul_div_le a b Hb). nia. }
    nia.
Qed.

(** Where the spacing of the floats is at most [1 / (2 * b)], the float of
    a quotient stays below the next integer. *)
Lemma int_of_true_div_exact (a b : Z) :
  0 <= a -> 0 < b -> b <= 2 ^ 20 -> a / b < 2 ^ 32 -> int_of_true_div a b = a / b.
Proof.
  intros Ha Hb Hb20 Hsmall. unfold int_of_true_div.
  case_decide as Hlt; [symmetry; apply Z.div_small; lia|].
  cbv zeta.
  assert (1 <= a / b) as Hq by (apply Z.div_le_lower_bound; lia).
  pose proof (Z.log2_nonneg (a / b)) as He0.
  destruct (Z.log2_spec (a / b)) as [Hlo Hhi]; [lia|].
  set (e := Z.log2 (a / b)) in *.
  assert (e < 32) as He.
  { apply (Z.pow_lt_mono_r_iff 2); lia. }
  case_decide; [|lia].
  set (p := 2 ^ (52 - e)).
  assert (2 ^ 21 <= p) as Hp21 by (apply Z.pow_le_mono_r; lia).
  assert (0 < p) as Hp by lia.
  assert (2 * b <= p) as Hpb by (change (2 ^ 21) with (2 * 2 ^ 20) in Hp21; lia).
  pose proof (round_half_even_bounds (a * p) b Hb) as [Hr1 Hr2].
  pose proof (Z.div_mod a b ltac:(lia)) as Hdm.
  pose proof (Z.mod_pos_bound a b Hb) as Hmod.
  set (q := a / b) in *. set (r := a mod b) in *.
  assert (a * p / b <= q * p + p - 2) as Hup.
  { apply Z.lt_succ_r. apply Z.div_lt_upper_bound; [lia|]. nia. }
  assert (q * p <= a * p / b) as Hdown.
  { apply Z.div_le_lower_bound; [lia|]. nia. }
  apply Z.le_antisymm.
  - apply Z.lt_succ_r. apply Z.div_lt_upper_bound; [lia|]. nia.
  - apply Z.div_le_lower_bound; [lia|]. nia.
Qed.

Lemma whole_seconds_exact (td : Z) :
  Z.abs td < 2 ^ 32 * second -> whole_seconds td = Z.quot td second.
Proof.
  intros Hsmall. unfold whole_seconds.
  rewrite int_of_true_div_exact.
  - rewrite (Z.quot_div td second) by (unfold second; lia).
    change (Z.sgn second) with 1. change (Z.abs second) with second. lia.
  - lia.
  - unfold second. lia.
  - unfold second. lia.
  - apply Z.div_lt_upper_bound; [unfold second; lia|]. lia.
Qed.

Lemma whole_seconds_nonpos (td : Z) : td <= 0 -> whole_seconds td <= 0.
Proof.
  intros H. unfold whole_seconds.
  pose proof (int_of_true_div_nonneg (Z.abs td) second ltac:(lia) ltac:(unfold second; lia)).
  assert (Z.sgn td <= 0) by (destruct td; cbn; lia). nia.
Qed.

(** The comparison of [expires_in_seconds] with 300 in microseconds. *)
Lemma whole_seconds_above_margin (remaining : Z) :
  whole_seconds remaining > 300 <-> seconds 301 <= remaining.
Proof.
  split.
  - intros Hgt. destruct (decide (seconds 301 <= remaining)) as [|Hlt]; [assumption|].
    exfalso. destruct (decide (remaining <= 0)) as [Hneg|Hpos].
    + pose proof (whole_seconds_nonpos remaining Hneg). lia.
    + rewrite whole_seconds_exact in Hgt by (unfold seconds, second in *; lia).
      rewrite Z.quot_div_nonneg in Hgt by (unfold second; lia).
      assert (remaining / second < 301); [|lia].
      apply Z.div_lt_upper_bound; unfold seconds, second in *; lia.
  - intros Hge. unfold whole_seconds.
    rewrite Z.sgn_pos, Z.abs_eq by (unfold seconds, second in *; lia).
    pose proof (int_of_true_div_lower remaining second 301 ltac:(unfold second; lia)
                  ltac:(lia) ltac:(unfold seconds in Hge; lia)). lia.
Qed.

(** C9 (as amended). [refresh_access_token] fails with [TokenExpiredError]
    when no refresh token is stored, leaving the store as it is.  With a
    refresh token [rt] in hand: when the token endpoint answers with an
    HTTP error status, all stored tokens are cleared (file and Redis) and
    the call fails with [TokenExpiredError]; when the call fails in any
    other way (the transport raises, or the body cannot be decoded), it
    fails with an [AuthenticationError] that is not a [TokenExpiredError]
    and the stored tokens are left in place. *)
Theorem refresh_access_token_failures (w : World) :
  (lookup_record "refresh" w = None ->
     refresh_access_token w
     = (w, Raise (new_exn TokenExpiredError
                    (FStr "No refresh token available. Please re-authenticate."))))
  /\ (forall (w1 : World) (rt : string),
        get_token "refresh" w = (w1, Some rt) ->
        rt <> "" ->
        let w2 := emit (EvTokenPost "refresh_token")
                       (set_token_posts (S (token_posts w1)) w1) in
        let outcome := token_endpoint (token_posts w1) "refresh_token" rt in
        (forall status text,
           outcome = PostStatusError status text ->
           refresh_access_token w
           = (clear_all w2,
              Raise (new_exn TokenExpiredError
                       (FStr "Token refresh failed. Please re-authenticate.")))
           /\ token_file (clear_all w2) = ∅
           /\ (forall r token_type, redis (clear_all w2) = Some r ->
                                   r !! redis_key token_type = None))
        /\ (forall e,
              outcome = PostRaises e \/ outcome = PostOk (Raise e) ->
              refresh_access_token w = (w2, Raise (refresh_failed e))
              /\ exn_cls (refresh_failed e) = AuthenticationError
              /\ isinstance (refresh_failed e) TokenExpiredError = false
              /\ token_file w2 = token_file w1
              /\ redis w2 = redis w1)).
Proof.
  split.
  - intros Hnone. unfold refresh_access_token.
    rewrite (get_token_absent _ _ Hnone). reflexivity.
  - intros w1 rt Hget Hrt w2 outcome.
    destruct rt as [|c rest]; [contradiction|].
    split.
    + intros status text Hout. split; [|apply clear_all_empty].
      unfold refresh_access_token. rewrite Hget. fold w2. fold outcome.
      rewrite Hout. reflexivity.
    + intros e Hout.
      split; [|repeat split].
      unfold refresh_access_token. rewrite Hget. fold w2. fold outcome.
      destruct Hout as [-> | ->]; reflexivity.
Qed.

(** [get_valid_token] on a store whose access token is found by both
    lookups and has not expired: the comparison with the margin decides. *)
Lemma get_valid_token_with_record
    (w : World) (data : pydict) (expires_at : Z) (ciphertext access_token : string) :
  lookup_record "access" w = Some data ->
  lookup_info_record "access" w = Some data ->
  expires_at_of data = Some expires_at ->
  data !! "token" = Some (PStr ciphertext) ->
  decrypt ciphertext = Some access_token ->
  access_token <> "" ->
  clock (ticks w) <= expires_at ->
  let w3 := set_ticks (3 + ticks w) w in
  let remaining := expires_at - clock (2 + ticks w) in
  (seconds 301 <= remaining -> get_valid_token w = (w3, Ret access_token))
  /\ (remaining < seconds 301 -> get_valid_token w = refresh_access_token w3).
Proof.
  intros Hlook Hinfo Hexp Htok Hdec Hne Hlive w3 remaining.
  destruct (get_token_lazy_expiry_aux _ _ _ _ Hlook Hexp) as [_ Hget].
  specialize (Hget Hlive _ Htok). rewrite Hdec in Hget.
  destruct access_token as [|c rest]; [contradiction|].
  assert (get_token_info "access" (set_ticks (S (ticks w)) w)
          = (w3, Some (<["expires_in_seconds" := PInt (whole_seconds remaining)]>
                         (<["is_expired" :=
                              PBool (bool_decide (clock (S (ticks w)) > expires_at))]>
                            (delete "token" data))))) as Hinf.
  { unfold get_token_info.
    change (lookup_info_record "access" (set_ticks (S (ticks w)) w))
      with (lookup_info_record "access" w).
    rewrite Hinfo.
    destruct (decide (data = ∅)) as [He|_];
      [exfalso; exact (expires_at_of_nonempty _ _ Hexp He)|].
    assert (expires_at_of (delete "token" data) = Some expires_at) as ->.
    { unfold expires_at_of in *. rewrite lookup_delete_ne by discriminate. exact Hexp. }
    reflexivity. }
  assert (forall info : pydict,
            outside_margin
              (Some (<["expires_in_seconds" := PInt (whole_seconds remaining)]> info))
            = bool_decide (whole_seconds remaining > 300)) as Hmargin.
  { intros info. unfold outside_margin.
    destruct (decide (<["expires_in_seconds" := PInt (whole_seconds remaining)]> info = ∅))
      as [He|_]; [exfalso; exact (insert_non_empty _ _ _ He)|].
    rewrite lookup_insert_eq. reflexivity. }
  unfold get_valid_token. rewrite Hget, Hinf, Hmargin.
  pose proof (whole_seconds_above_margin remaining) as Hw.
  split; intros Hrem.
  - rewrite bool_decide_eq_true_2 by (apply Hw; exact Hrem). reflexivity.
  - rewrite bool_decide_eq_false_2 by (rewrite Hw; lia). reflexivity.
Qed.


(** ** The request pipeline *)

Lemma try_body_total (retry : World -> option (World * res pyval)) (retry_count : Z)
    (outcome : http_outcome) (w : World) :
  (retry_count > 0 \/ retry_count = max_retries settings -> forall w', is_Some (retry w')) ->
  is_Some (try_body retry retry_count outcome w).
Proof.
  intros Hretry. unfold try_body.
  destruct outcome as [e|response]; [eauto|].
  repeat case_decide; eauto.
  - destruct (refresh_access_token w) as [w1 [tok|e]]; [|eauto].
    assert (is_Some (retry w1)) as [[w2 [v|e]] ->] by (apply Hretry; auto); eauto.
  - destruct (retry_after_of response); eauto.
  - destruct (retry_after_of response); eauto.
Qed.

Lemma except_clauses_total (retry : World -> option (World * res pyval)) (retry_count : Z)
    (attempt : option (World * res pyval)) :
  (retry_count > 0 -> forall w', is_Some (retry w')) ->
  is_Some attempt ->
  is_Some (except_clauses retry retry_count attempt).
Proof.
  intros Hretry [[w [v|e]] ->]; unfold except_clauses; [eauto|].
  destruct (isinstance e TimeoutError).
  - destruct (decide (retry_count > 0)); [apply Hretry; assumption | eauto].
  - destruct (bool_decide (retry_count > 0)) eqn:Hb; [|eauto].
    apply bool_decide_eq_true in Hb.
    destruct (negb _); [apply Hretry; assumption | eauto].
Qed.

(** One level of the recursion. *)
Lemma request_fuel_S (fuel : nat) (a : request_args) (retry_count : Z) (w : World) :
  request_fuel (S fuel) a retry_count w
  = match get_async_auth_headers (_handle_rate_limit w) with
    | (w1, Raise e) => Some (w1, Raise e)
    | (w1, Ret _) =>
        let retry := request_fuel fuel a (retry_count - 1) in
        except_clauses retry retry_count
          (try_body retry retry_count
             (admin_api (http_calls w1) (method a) (request_url a))
             (emit (EvRequest (method a) (request_url a))
                   (set_http_calls (S (http_calls w1)) w1)))
    end.
Proof. reflexivity. Qed.

(** One level of [request_fuel] is total as soon as the level below is,
    where this level can reach it. *)
Lemma request_fuel_step (fuel : nat) (a : request_args) (retry_count : Z) (w : World) :
  (retry_count > 0 \/ retry_count = max_retries settings ->
   forall w', is_Some (request_fuel fuel a (retry_count - 1) w')) ->
  is_Some (request_fuel (S fuel) a retry_count w).
Proof.
  intros Hbelow. cbn [request_fuel].
  destruct (get_async_auth_headers (_handle_rate_limit w)) as [w1 [auth_headers|e]];
    [|eauto].
  apply except_clauses_total; [auto|].
  apply try_body_total. exact Hbelow.
Qed.

(** The recursion of [request] is at most [retry_count + 2] deep: it goes
    on only while the budget is positive, or once from a 401 at the
    initial budget. *)
Lemma request_fuel_enough (a : request_args) (retry_count : Z) (fuel : nat) (w : World) :
  (request_depth retry_count <= fuel)%nat ->
  is_Some (request_fuel fuel a retry_count w).
Proof.
  unfold request_depth.
  assert (forall rc f w', rc <= 0 -> rc <> max_retries settings -> (1 <= f)%nat ->
                          is_Some (request_fuel f a rc w')) as Hlast.
  { intros rc [|f] w' Hrc Hne Hf; [lia|].
    apply request_fuel_step. intros [?|?]; [lia | contradiction]. }
  assert (forall rc f w', rc <= 0 -> (2 <= f)%nat ->
                          is_Some (request_fuel f a rc w')) as Hzero.
  { intros rc [|f] w' Hrc Hf; [lia|].
    apply request_fuel_step. intros [?|Heq] w''; [lia|].
    apply Hlast; lia. }
  remember (Z.to_nat retry_count) as n eqn:Hn.
  revert retry_count fuel w Hn.
  induction n as [|n IH]; intros rc fuel w Hn Hfuel.
  - apply Hzero; lia.
  - destruct fuel as [|fuel]; [lia|].
    apply request_fuel_step. intros _ w'.
    apply IH; lia.
Qed.

(** [request] always comes back, with a value or with an exception. *)
Lemma request_total (a : request_args) (retry_count : option Z) (w : World) :
  is_Some (request a retry_count w).
Proof. unfold request. apply request_fuel_enough. lia. Qed.

Lemma refresh_access_token_raises (w w' : World) (e : exn) :
  refresh_access_token w = (w', Raise e) -> auth_class e.
Proof.
  unfold refresh_access_token, auth_class.
  destruct (get_token "refresh" w) as [w1 [[|c rest]|]];
    try (intros [= _ <-]; cbn; auto; fail).
  destruct (token_endpoint _ _ _) as [e0|status text|[td|e0]];
    try (intros [= _ <-]; cbn; auto; fail).
  destruct (td_access_token td); intros [= _ <-]; cbn; auto.
Qed.

Lemma get_async_auth_headers_raises (w w' : World) (e : exn) :
  get_async_auth_headers w = (w', Raise e) -> auth_class e.
Proof.
  unfold get_async_auth_headers, get_valid_token.
  destruct (get_token "access" w) as [w1 [[|c rest]|]];
    try (intros [= _ <-]; left; reflexivity).
  destruct (get_token_info "access" w1) as [w2 info].
  destruct (outside_margin info); [discriminate|].
  destruct (refresh_access_token w2) as [w3 [tok|e0]] eqn:Href; [discriminate|].
  intros [= _ <-]. exact (refresh_access_token_raises _ _ _ Href).
Qed.

Lemma except_clauses_raises (retry : World -> option (World * res pyval))
    (retry_count : Z) (attempt : option (World * res pyval)) (w : World) (e : exn) :
  (forall w0 w1 e1, retry w0 = Some (w1, Raise e1) -> request_class e1) ->
  except_clauses retry retry_count attempt = Some (w, Raise e) ->
  request_class e.
Proof.
  intros Hretry. unfold except_clauses.
  destruct attempt as [[w0 [v|e0]]|]; try discriminate.
  destruct (isinstance e0 TimeoutError).
  - destruct (decide (retry_count > 0)); [apply Hretry|].
    intros [= _ <-]. left. reflexivity.
  - destruct (_ && _); [apply Hretry|].
    intros [= _ <-]. left. reflexivity.
Qed.

(** Whatever the responses, an exception that leaves [request] is a
    [NetworkError] built by the last [except] clause, or comes from the
    authentication manager before the [try] statement.  In particular the
    [APIError] and [RateLimitError] raised inside the [try] statement
    never reach the caller. *)
Lemma request_fuel_raises (fuel : nat) (a : request_args) (retry_count : Z)
    (w w' : World) (e : exn) :
  request_fuel fuel a retry_count w = Some (w', Raise e) -> request_class e.
Proof.
  revert retry_count w w' e.
  induction fuel as [|fuel IH]; intros rc w w' e; [discriminate|].
  cbn [request_fuel].
  destruct (get_async_auth_headers (_handle_rate_limit w)) as [w1 [auth_headers|e0]] eqn:Hauth.
  - apply except_clauses_raises. intros w0 w2 e1. apply IH.
  - intros [= _ <-]. right. exact (get_async_auth_headers_raises _ _ _ Hauth).
Qed.

Lemma request_never_raises_APIError (a : request_args) (retry_count : option Z)
    (w w' : World) (e : exn) :
  request a retry_count w = Some (w', Raise e) -> isinstance e APIError = false.
Proof.
  intros H. apply request_fuel_raises in H.
  unfold isinstance. destruct H as [-> | [-> | ->]]; reflexivity.
Qed.

(** *** Runs with a valid access token

    The store holds an access token that both lookups find and that stays
    outside the safety margin at every reading of the clock, so that the
    authentication manager answers every attempt from the store. *)
Section Authorized.

Variables (data : pydict) (expires_at : Z) (ciphertext access_token : string).
Hypothesis data_expires : expires_at_of data = Some expires_at.
Hypothesis data_token : data !! "token" = Some (PStr ciphertext).
Hypothesis token_decrypts : decrypt ciphertext = Some access_token.
Hypothesis token_nonempty : access_token <> "".
Hypothesis clock_in_margin : forall n, clock n + seconds 301 <= expires_at.

Lemma sees_access_same_store (w w' : World) :
  redis w' = redis w -> token_file w' = token_file w ->
  sees_access data w -> sees_access data w'.
Proof.
  unfold sees_access, lookup_record, lookup_info_record, _load_from_file, _load_all_tokens.
  intros -> ->. auto.
Qed.

Lemma handle_rate_limit_frame (w : World) :
  redis (_handle_rate_limit w) = redis w
  /\ token_file (_handle_rate_limit w) = token_file w
  /\ http_calls (_handle_rate_limit w) = http_calls w.
Proof.
  unfold _handle_rate_limit, throttle, now.
  cbn. destruct (_rate_limit_reset w) as [r|];
    repeat (case_decide; cbn); repeat split; reflexivity.
Qed.

Lemma get_async_auth_headers_cached (w : World) :
  sees_access data w ->
  exists auth_headers,
    get_async_auth_headers w = (set_ticks (3 + ticks w) w, Ret auth_headers).
Proof.
  intros [Hlook Hinfo]. unfold get_async_auth_headers.
  assert (clock (ticks w) <= expires_at) as Hlive.
  { pose proof (clock_in_margin (ticks w)). unfold seconds, second in *. lia. }
  destruct (get_valid_token_with_record w data expires_at ciphertext access_token
              Hlook Hinfo data_expires data_token token_decrypts token_nonempty Hlive)
    as [Hcached _].
  rewrite Hcached; [eauto|].
  pose proof (clock_in_margin (2 + ticks w)). lia.
Qed.

(** One level of [request] on such a store: the attempt is made, and the
    world in which the response is classified still has the store. *)
Lemma request_fuel_authorized (fuel : nat) (a : request_args) (retry_count : Z) (w : World) :
  sees_access data w ->
  exists w2,
    sees_access data w2
    /\ redis w2 = redis w /\ token_file w2 = token_file w
    /\ http_calls w2 = S (http_calls w)
    /\ request_fuel (S fuel) a retry_count w
       = except_clauses (request_fuel fuel a (retry_count - 1)) retry_count
           (try_body (request_fuel fuel a (retry_count - 1)) retry_count
              (admin_api (http_calls w) (method a) (request_url a)) w2).
Proof.
  intros Hsees.
  destruct (handle_rate_limit_frame w) as (Hr & Hf & Hc).
  assert (sees_access data (_handle_rate_limit w)) as Hsees'
    by (eapply sees_access_same_store; eauto).
  destruct (get_async_auth_headers_cached _ Hsees') as [auth_headers Hauth].
  rewrite request_fuel_S, Hauth. cbv zeta. cbn [http_calls set_ticks].
  rewrite Hc.
  eexists. split; [|split; [|split; [|split; [|reflexivity]]]].
  - eapply sees_access_same_store; [| |exact Hsees]; cbn; assumption.
  - cbn. assumption.
  - cbn. assumption.
  - cbn. reflexivity.
Qed.

(** Every attempt answers with the same client error.  However many
    attempts the budget of [n] allows, all [n + 1] are made, and the call
    ends with a [NetworkError]. *)
Lemma always_client_error_attempts
    (a : request_args) (response : Response) (n : nat) :
  (forall k m u, admin_api k m u = HttpResponse response) ->
  400 <= status_code response < 500 ->
  status_code response <> 401 ->
  status_code response <> 429 ->
  forall (fuel : nat) (w : World),
    sees_access data w ->
    (n < fuel)%nat ->
    exists w',
      request_fuel fuel a (Z.of_nat n) w
      = Some (w', Raise (new_exn NetworkError (exn_str (client_error response))))
      /\ redis w' = redis w /\ token_file w' = token_file w
      /\ http_calls w' = (http_calls w + n + 1)%nat.
Proof.
  intros Hapi Hrange H401 H429.
  assert (forall retry rc w,
            try_body retry rc (HttpResponse response) w
            = Some (w, Raise (client_error response))) as Hbody.
  { intros retry rc w. unfold try_body.
    repeat (case_decide; try lia). reflexivity. }
  assert (isinstance (client_error response) TimeoutError = false
          /\ isinstance (client_error response) AuthenticationError = false
          /\ isinstance (client_error response) ValidationError = false) as (Ht & Ha & Hv).
  { unfold client_error. destruct (json response) as [[]| |]; repeat split; reflexivity. }
  induction n as [|n IH]; intros fuel w Hsees Hfuel.
  - destruct fuel as [|fuel]; [lia|].
    destruct (request_fuel_authorized fuel a (Z.of_nat 0) w Hsees)
      as (w2 & _ & Hr & Hf & Hc & ->).
    rewrite Hapi, Hbody. unfold except_clauses. rewrite Ht. cbn.
    eexists. split; [reflexivity|]. repeat split; try assumption. lia.
  - destruct fuel as [|fuel]; [lia|].
    destruct (request_fuel_authorized fuel a (Z.of_nat (S n)) w Hsees)
      as (w2 & Hsees2 & Hr & Hf & Hc & ->).
    rewrite Hapi, Hbody. unfold except_clauses. rewrite Ht, Ha, Hv.
    rewrite bool_decide_eq_true_2 by lia. cbn [andb orb negb].
    replace (Z.of_nat (S n) - 1) with (Z.of_nat n) by lia.
    destruct (IH fuel (sleep (seconds 1) w2)) as (w' & -> & Hr' & Hf' & Hc').
    + eapply sees_access_same_store; [| |exact Hsees2]; reflexivity.
    + lia.
    + exists w'. split; [reflexivity|]. cbn in Hr', Hf', Hc'.
      repeat split; try congruence. lia.
Qed.

(** Every attempt answers 500.  With a budget of [n] the call makes
    [2 ^ (n + 1) - 1] attempts: after the backoff a level retries, and when
    that retry has failed it retries once more from [except Exception]; the
    call ends with a [NetworkError]. *)
Lemma always_500_attempts (a : request_args) (n : nat) :
  (forall k m u, exists response,
      admin_api k m u = HttpResponse response /\ status_code response = 500) ->
  forall (fuel : nat) (w : World),
    sees_access data w ->
    (n < fuel)%nat ->
    exists w',
      request_fuel fuel a (Z.of_nat n) w
      = Some (w', Raise (new_exn NetworkError (FCat (FStr "Server error: ") (FInt 500))))
      /\ redis w' = redis w /\ token_file w' = token_file w
      /\ (http_calls w' + 1 = http_calls w + 2 ^ (n + 1))%nat.
Proof.
  intros Hapi.
  induction n as [|n IH]; intros fuel w Hsees Hfuel.
  - destruct fuel as [|fuel]; [lia|].
    destruct (request_fuel_authorized fuel a (Z.of_nat 0) w Hsees)
      as (w2 & _ & Hr & Hf & Hc & ->).
    destruct (Hapi (http_calls w) (method a) (request_url a)) as (response & -> & Hst).
    unfold try_body. rewrite Hst. cbn.
    eexists. split; [reflexivity|]. repeat split; try assumption. lia.
  - destruct fuel as [|fuel]; [lia|].
    destruct (request_fuel_authorized fuel a (Z.of_nat (S n)) w Hsees)
      as (w2 & Hsees2 & Hr & Hf & Hc & ->).
    destruct (Hapi (http_calls w) (method a) (request_url a)) as (response & -> & Hst).
    unfold try_body. rewrite Hst.
    repeat (case_decide; try lia).
    replace (Z.of_nat (S n) - 1) with (Z.of_nat n) by lia.
    match goal with
    | |- context [request_fuel fuel a (Z.of_nat n) ?w3] =>
        destruct (IH fuel w3) as (w4 & -> & Hr4 & Hf4 & Hc4);
        [eapply sees_access_same_store; [| |exact Hsees2]; reflexivity | lia |]
    end.
    unfold except_clauses.
    change (isinstance (new_exn NetworkError (FCat (FStr "Server error: ") (FInt 500)))
              TimeoutError) with false.
    change (isinstance (new_exn NetworkError (FCat (FStr "Server error: ") (FInt 500)))
              AuthenticationError) with false.
    change (isinstance (new_exn NetworkError (FCat (FStr "Server error: ") (FInt 500)))
              ValidationError) with false.
    rewrite bool_decide_eq_true_2 by lia. cbn [andb orb negb].
    cbn in Hr4, Hf4, Hc4.
    destruct (IH fuel (sleep (seconds 1) w4)) as (w5 & -> & Hr5 & Hf5 & Hc5).
    + eapply sees_access_same_store; [| |exact Hsees2]; cbn; congruence.
    + lia.
    + exists w5. split; [reflexivity|]. cbn in Hr5, Hf5, Hc5.
      repeat split; try congruence.
      replace (S n + 1)%nat with (S (n + 1)) by lia. rewrite Nat.pow_succ_r'. lia.
Qed.

(** X15. A transport that fails at every attempt.  When [session.request]
    raises the same exception each time (not one of the [Cafe24Error]
    classes that the [except] clause exempts), a budget of [n] gives exactly
    [n + 1] attempts, and the call ends with a [NetworkError]: with the text
    [Request timeout] for [asyncio.TimeoutError], with the text of the
    exception otherwise.  The token store is not touched. *)
Theorem transport_failure_attempts (a : request_args) (e : exn) (n : nat) :
  (forall k m u, admin_api k m u = HttpRaises e) ->
  isinstance e AuthenticationError = false ->
  isinstance e ValidationError = false ->
  forall (fuel : nat) (w : World),
    sees_access data w ->
    (n < fuel)%nat ->
    exists w',
      request_fuel fuel a (Z.of_nat n) w
      = Some (w', Raise (new_exn NetworkError
                           (if isinstance e TimeoutError then FStr "Request timeout"
                            else exn_str e)))
      /\ redis w' = redis w /\ token_file w' = token_file w
      /\ http_calls w' = (http_calls w + n + 1)%nat.
Proof.
  intros Hapi Ha Hv.
  induction n as [|n IH]; intros fuel w Hsees Hfuel.
  - destruct fuel as [|fuel]; [lia|].
    destruct (request_fuel_authorized fuel a (Z.of_nat 0) w Hsees)
      as (w2 & _ & Hr & Hf & Hc & ->).
    rewrite Hapi. unfold try_body, except_clauses.
    destruct (isinstance e TimeoutError); cbn;
      (eexists; split; [reflexivity|]; repeat split; try assumption; lia).
  - destruct fuel as [|fuel]; [lia|].
    destruct (request_fuel_authorized fuel a (Z.of_nat (S n)) w Hsees)
      as (w2 & Hsees2 & Hr & Hf & Hc & ->).
    rewrite Hapi. unfold try_body, except_clauses. rewrite Ha, Hv.
    rewrite bool_decide_eq_true_2 by lia. cbn [andb orb negb].
    replace (Z.of_nat (S n) - 1) with (Z.of_nat n) by lia.
    destruct (isinstance e TimeoutError) eqn:Ht.
    + destruct (decide (Z.of_nat (S n) > 0)); [|lia].
      destruct (IH fuel w2 Hsees2) as (w' & -> & Hr' & Hf' & Hc'); [lia|].
      exists w'. split; [reflexivity|]. repeat split; try congruence. lia.
    + destruct (IH fuel (sleep (seconds 1) w2)) as (w' & -> & Hr' & Hf' & Hc').
      * eapply sees_access_same_store; [| |exact Hsees2]; reflexivity.
      * lia.
      * exists w'. split; [reflexivity|]. cbn in Hr', Hf', Hc'.
        repeat split; try congruence. lia.
Qed.

End Authorized.

(** C10. A status that no branch of the classification chain matches:
    when the authentication manager has produced the headers and the
    response of the attempt has a status other than 200, 201, 204, 401
    and 429 that lies outside 400..599 (202, or a 3xx that was not
    followed), [request] returns [None] after this single attempt, with no
    data envelope and no exception, whatever the retry budget. *)
Theorem request_unclassified_status
    (a : request_args) (retry_count : option Z) (w w1 : World)
    (auth_headers : gmap string string) (response : Response) :
  get_async_auth_headers (_handle_rate_limit w) = (w1, Ret auth_headers) ->
  admin_api (http_calls w1) (method a) (request_url a) = HttpResponse response ->
  status_code response ∉ [200; 201; 204; 401; 429] ->
  ~ (400 <= status_code response < 600) ->
  request a retry_count w
  = Some (emit (EvRequest (method a) (request_url a))
               (set_http_calls (S (http_calls w1)) w1),
          Ret PNone).
Proof.
  intros Hauth Hresp Hnot Hrange.
  unfold request, request_depth. rewrite request_fuel_S, Hauth.
  cbv zeta. rewrite Hresp. unfold try_body.
  repeat match goal with
         | |- context [decide (status_code response = ?n)] =>
             destruct (decide (status_code response = n)) as [Heq|_];
             [exfalso; apply Hnot; rewrite Heq; set_solver|]
         | |- context [decide (?lo <= status_code response < ?hi)] =>
             destruct (decide (lo <= status_code response < hi)) as [?|_];
             [exfalso; lia|]
         end.
  reflexivity.
Qed.

(** ** More on the token store *)

Lemma redis_key_inj (a b : string) : redis_key a = redis_key b -> a = b.
Proof. unfold redis_key. apply (inj (String.append "cafe24:token:")). Qed.

(** Lookups depend on the two stores only. *)
Lemma same_stores_lookup (token_type : string) (w w' : World) :
  same_stores w w' ->
  lookup_record token_type w' = lookup_record token_type w
  /\ lookup_info_record token_type w' = lookup_info_record token_type w.
Proof.
  intros [Hr Hf].
  unfold lookup_record, lookup_info_record, _load_from_file, _load_all_tokens.
  rewrite Hr, Hf. auto.
Qed.

(** Two worlds whose stores agree on one token type. *)
Lemma lookups_agree (token_type : string) (w w' : World) :
  token_file w' !! token_type = token_file w !! token_type ->
  (redis w' = None <-> redis w = None) ->
  (forall r r', redis w = Some r -> redis w' = Some r' ->
                r' !! redis_key token_type = r !! redis_key token_type) ->
  lookup_record token_type w' = lookup_record token_type w
  /\ lookup_info_record token_type w' = lookup_info_record token_type w.
Proof.
  intros Hf Hnone Hr.
  unfold lookup_record, lookup_info_record, _load_from_file, _load_all_tokens.
  destruct (redis w) as [r|] eqn:Ew; destruct (redis w') as [r'|] eqn:Ew'.
  - rewrite (Hr r r' eq_refl eq_refl), Hf. auto.
  - destruct Hnone as [Hn _]. specialize (Hn eq_refl). discriminate.
  - destruct Hnone as [_ Hn]. specialize (Hn eq_refl). discriminate.
  - rewrite Hf. auto.
Qed.

(** X1. [delete_token] removes the record of its token type from the file
    and from Redis, so that both lookups find nothing; it leaves the records
    of every other token type where they are; deleting again changes neither
    store; and without Redis, deleting a type that is not stored leaves the
    world exactly as it was (the file is not rewritten). *)
Theorem delete_token_effect (token_type other : string) (w : World) :
  other <> token_type ->
  lookup_record token_type (delete_token token_type w) = None
  /\ lookup_info_record token_type (delete_token token_type w) = None
  /\ lookup_record other (delete_token token_type w) = lookup_record other w
  /\ lookup_info_record other (delete_token token_type w) = lookup_info_record other w
  /\ same_stores (delete_token token_type w)
       (delete_token token_type (delete_token token_type w))
  /\ (redis w = None -> token_file w !! token_type = None ->
      delete_token token_type w = w).
Proof.
  intros Hne.
  assert (token_file (delete_token token_type w) = delete token_type (token_file w)
          /\ redis (delete_token token_type w)
             = delete (redis_key token_type) <$> redis w) as [Hf Hr].
  { unfold delete_token, _load_all_tokens, _save_all_tokens.
    destruct (redis w) as [r|] eqn:Er; cbn;
      destruct (token_file w !! token_type) eqn:Ef; cbn; rewrite ?Er;
      split; try reflexivity; symmetry; apply delete_id; assumption. }
  split; [|split; [|split; [|split; [|split]]]].
  - unfold lookup_record, _load_from_file, _load_all_tokens. rewrite Hr, Hf.
    destruct (redis w) as [r|]; cbn; rewrite ?lookup_delete_eq; cbn;
      rewrite ?lookup_delete_eq; reflexivity.
  - unfold lookup_info_record, _load_from_file, _load_all_tokens. rewrite Hr, Hf.
    destruct (redis w) as [r|]; cbn; rewrite ?lookup_delete_eq; reflexivity.
  - apply lookups_agree.
    + rewrite Hf. apply lookup_delete_ne. congruence.
    + rewrite Hr. destruct (redis w); cbn; split; congruence.
    + intros r r' Er Er'. rewrite Hr, Er in Er'. cbn in Er'.
      apply (inj Some) in Er'. subst r'.
      apply lookup_delete_ne. intros Hk. apply redis_key_inj in Hk. congruence.
  - apply lookups_agree.
    + rewrite Hf. apply lookup_delete_ne. congruence.
    + rewrite Hr. destruct (redis w); cbn; split; congruence.
    + intros r r' Er Er'. rewrite Hr, Er in Er'. cbn in Er'.
      apply (inj Some) in Er'. subst r'.
      apply lookup_delete_ne. intros Hk. apply redis_key_inj in Hk. congruence.
  - set (w1 := delete_token token_type w) in *.
    assert (token_file (delete_token token_type w1) = delete token_type (token_file w1)
            /\ redis (delete_token token_type w1)
               = delete (redis_key token_type) <$> redis w1) as [Hf1 Hr1].
    { unfold delete_token, _load_all_tokens, _save_all_tokens.
      destruct (redis w1) as [r|] eqn:Er; cbn;
        destruct (token_file w1 !! token_type) eqn:Ef; cbn; rewrite ?Er;
        split; try reflexivity; symmetry; apply delete_id; assumption. }
    split.
    + rewrite Hr1, Hr. destruct (redis w) as [r|]; cbn; [|reflexivity].
      f_equal. apply delete_id. apply lookup_delete_eq.
    + rewrite Hf1, Hf. apply delete_id. apply lookup_delete_eq.
  - intros Er Ef. unfold delete_token, _load_all_tokens. rewrite Er. cbn.
    rewrite Ef. reflexivity.
Qed.

(** X2. After [logout] (which is [clear_all]) no token of any type is left:
    [get_token] and [get_token_info] find nothing, [is_authenticated] is
    false, [get_valid_token] and [get_auth_headers] fail with
    [AuthenticationError], [refresh_access_token] fails with
    [TokenExpiredError], none of them touching the world; and the keys of
    Redis outside the prefix [cafe24:token:] are kept. *)
Theorem logout_forgets_every_token (token_type : string) (w : World) :
  get_token token_type (logout w) = (logout w, None)
  /\ get_token_info token_type (logout w) = (logout w, None)
  /\ is_authenticated (logout w) = (logout w, false)
  /\ (exists e, get_valid_token (logout w) = (logout w, Raise e)
                /\ exn_cls e = AuthenticationError)
  /\ (exists e, get_auth_headers (logout w) = (logout w, Raise e)
                /\ exn_cls e = AuthenticationError)
  /\ (exists e, refresh_access_token (logout w) = (logout w, Raise e)
                /\ exn_cls e = TokenExpiredError)
  /\ (forall r r' key,
        redis w = Some r -> redis (logout w) = Some r' ->
        String.prefix "cafe24:token:" key = false ->
        r' !! key = r !! key).
Proof.
  assert (forall ty, lookup_record ty (logout w) = None
                     /\ lookup_info_record ty (logout w) = None) as Hgone.
  { intros ty. destruct (clear_all_empty w) as [Hf Hr].
    unfold lookup_record, lookup_info_record, _load_from_file, _load_all_tokens, logout.
    rewrite Hf. destruct (redis (clear_all w)) as [r|] eqn:Er.
    - rewrite (Hr r ty eq_refl). cbn. rewrite lookup_empty. auto.
    - rewrite lookup_empty. auto. }
  assert (forall ty, get_token ty (logout w) = (logout w, None)) as Hget.
  { intros ty. apply get_token_absent. apply Hgone. }
  split; [apply Hget|].
  split; [unfold get_token_info; destruct (Hgone token_type) as [_ ->]; reflexivity|].
  split; [unfold is_authenticated; rewrite Hget; reflexivity|].
  split; [unfold get_valid_token; rewrite Hget; eauto|].
  split; [unfold get_auth_headers; rewrite Hget; eauto|].
  split; [unfold refresh_access_token; rewrite Hget; eauto|].
  intros r r' key Er Er' Hkey. unfold logout, clear_all in Er'. rewrite Er in Er'.
  cbn in Er'. apply (inj Some) in Er'. subst r'.
  destruct (r !! key) as [v|] eqn:Ek.
  - apply map_lookup_filter_Some. split; [assumption|]. cbn. rewrite Hkey. exact I.
  - apply map_lookup_filter_None. left. assumption.
Qed.

(** [save_token] succeeds unless the expiry date leaves the range of
    [datetime], or Redis is configured and refuses the lifetime. *)
Lemma save_token_succeeds
    (token_type token : string) (expires_in : Z) (additional_data : option pydict)
    (w : World) :
  is_Some (datetime_add (clock (ticks w)) (seconds expires_in)) ->
  redis w = None \/ 0 < expires_in ->
  exists w', save_token token_type token expires_in additional_data w = (w', true).
Proof.
  intros [expires_at Hadd] Hredis. unfold save_token, now. cbn. rewrite Hadd.
  unfold encrypt. cbn.
  destruct (redis w) as [r|] eqn:Er; [|eauto].
  destruct Hredis as [?|Hpos]; [discriminate|].
  destruct (decide (0 < expires_in)); [eauto | contradiction].
Qed.

(** X3. [save_token] refuses what cannot be stored before it writes
    anything.  When the expiry date [now + expires_in] leaves the range of
    [datetime], or when a Redis client is configured and the lifetime is not
    positive (Redis refuses it, and the file is written only after Redis),
    the call answers [False], and neither the file nor Redis has changed:
    a token stored before is still there. *)
Theorem save_token_refusals
    (token_type token : string) (expires_in : Z) (additional_data : option pydict)
    (w : World) :
  datetime_add (clock (ticks w)) (seconds expires_in) = None
  \/ (is_Some (redis w) /\ expires_in <= 0) ->
  (save_token token_type token expires_in additional_data w).2 = false
  /\ same_stores w (save_token token_type token expires_in additional_data w).1
  /\ lookup_record token_type (save_token token_type token expires_in additional_data w).1
     = lookup_record token_type w.
Proof.
  intros Hrefused.
  assert ((save_token token_type token expires_in additional_data w).2 = false
          /\ same_stores w (save_token token_type token expires_in additional_data w).1)
    as [Hfalse Hstores].
  { unfold save_token, now, encrypt. cbn.
    destruct (datetime_add (clock (ticks w)) (seconds expires_in)) as [expires_at|] eqn:Hadd;
      cbn; [|repeat split; reflexivity].
    destruct Hrefused as [?|[[r Hr] Hle]]; [discriminate|].
    rewrite Hr. cbn.
    destruct (decide (0 < expires_in)); [lia|]. repeat split; reflexivity. }
  split; [exact Hfalse|]. split; [exact Hstores|].
  exact (proj1 (same_stores_lookup _ _ _ Hstores)).
Qed.

(** What [save_token] does for one type leaves the other types alone. *)
Lemma save_token_frame
    (token_type other token : string) (expires_in : Z) (additional_data : option pydict)
    (w : World) :
  other <> token_type ->
  lookup_record other (save_token token_type token expires_in additional_data w).1
  = lookup_record other w
  /\ lookup_info_record other (save_token token_type token expires_in additional_data w).1
     = lookup_info_record other w.
Proof.
  intros Hne. apply lookups_agree.
  - unfold save_token, now, encrypt, _save_to_file, _save_all_tokens, _load_all_tokens. cbn.
    destruct (datetime_add _ _); [|reflexivity].
    destruct (redis w) as [r|]; cbn.
    + destruct (decide (0 < expires_in)); cbn; [|reflexivity].
      apply lookup_insert_ne. congruence.
    + apply lookup_insert_ne. congruence.
  - unfold save_token, now, encrypt, _save_to_file, _save_all_tokens, _load_all_tokens. cbn.
    destruct (datetime_add _ _); [|reflexivity].
    destruct (redis w) as [r|] eqn:Er; cbn.
    + destruct (decide (0 < expires_in)); cbn; rewrite ?Er; split; discriminate.
    + rewrite Er. reflexivity.
  - intros r r' Er. unfold save_token, now, encrypt, _save_to_file, _save_all_tokens,
      _load_all_tokens. cbn.
    destruct (datetime_add _ _); cbn; [|rewrite Er; intros [= <-]; reflexivity].
    rewrite Er. cbn.
    destruct (decide (0 < expires_in)); cbn.
    + intros Er'. apply (inj Some) in Er'. subst r'.
      apply lookup_insert_ne. intros Hk. apply redis_key_inj in Hk. congruence.
    + rewrite Er. intros Er'. apply (inj Some) in Er'. subst r'. reflexivity.
Qed.

(** X4. Saving a token of one type does not disturb the tokens of the other
    types: whatever [save_token] does for [token_type], both lookups of any
    other type find afterwards what they found before. *)
Theorem save_token_other_type
    (token_type other token : string) (expires_in : Z) (additional_data : option pydict)
    (w : World) :
  other <> token_type ->
  lookup_record other (save_token token_type token expires_in additional_data w).1
  = lookup_record other w
  /\ lookup_info_record other (save_token token_type token expires_in additional_data w).1
     = lookup_info_record other w.
Proof. apply save_token_frame. Qed.

(** X5. What [get_token_info] gives out.  Whenever it answers with a
    dictionary [info], the secret is not in it (no key ["token"]), the stores
    are as before, and [info] is the stored record with two computed keys:
    ["is_expired"], the comparison of the first clock reading with the expiry
    date, and ["expires_in_seconds"], the seconds from the second reading
    to the expiry date as [int(total_seconds())] gives them: the float
    nearest to the quotient, rounded toward zero ([whole_seconds]), which is
    the exact whole number of seconds as long as the distance is below
    [2 ** 32] seconds; every other key is as stored.  When the clock does not
    run backwards between the two readings, a record reported as expired has
    no positive number of seconds left. *)
Theorem get_token_info_hides_secret
    (token_type : string) (w w' : World) (info : pydict) :
  get_token_info token_type w = (w', Some info) ->
  info !! "token" = None
  /\ same_stores w w'
  /\ exists (data : pydict) (expires_at : Z),
       lookup_info_record token_type w = Some data
       /\ expires_at_of data = Some expires_at
       /\ info !! "is_expired" = Some (PBool (bool_decide (clock (ticks w) > expires_at)))
       /\ info !! "expires_in_seconds"
          = Some (PInt (whole_seconds (expires_at - clock (S (ticks w)))))
       /\ (forall key, key <> "token" -> key <> "is_expired" ->
                       key <> "expires_in_seconds" -> info !! key = data !! key)
       /\ (clock (ticks w) <= clock (S (ticks w)) ->
           clock (ticks w) > expires_at ->
           whole_seconds (expires_at - clock (S (ticks w))) <= 0)
       /\ (Z.abs (expires_at - clock (S (ticks w))) < 2 ^ 32 * second ->
           whole_seconds (expires_at - clock (S (ticks w)))
           = Z.quot (expires_at - clock (S (ticks w))) second).
Proof.
  unfold get_token_info, now.
  destruct (lookup_info_record token_type w) as [data|] eqn:Hlook; [|discriminate].
  destruct (decide (data = ∅)); [discriminate|].
  destruct (expires_at_of (delete "token" data)) as [expires_at|] eqn:Hexp; [|discriminate].
  cbn. intros [= <- <-].
  split.
  { rewrite !lookup_insert_ne by discriminate. apply lookup_delete_eq. }
  split; [split; reflexivity|].
  exists data, expires_at.
  split; [reflexivity|].
  split.
  { unfold expires_at_of in *. rewrite lookup_delete_ne in Hexp by discriminate.
    exact Hexp. }
  split.
  { rewrite lookup_insert_ne by discriminate. apply lookup_insert_eq. }
  split; [apply lookup_insert_eq|].
  split.
  - intros key H1 H2 H3.
    rewrite !lookup_insert_ne by congruence. apply lookup_delete_ne. congruence.
  - split; [|apply whole_seconds_exact].
    intros Hmono Hgt. apply whole_seconds_nonpos. lia.
Qed.

(** A secret that [get_token] returns comes from a live record. *)
Lemma get_token_some (token_type : string) (w w' : World) (s : string) :
  get_token token_type w = (w', Some s) ->
  exists (data : pydict) (expires_at : Z) (ciphertext : string),
    lookup_record token_type w = Some data
    /\ expires_at_of data = Some expires_at
    /\ clock (ticks w) <= expires_at
    /\ data !! "token" = Some (PStr ciphertext)
    /\ decrypt ciphertext = Some s
    /\ w' = set_ticks (S (ticks w)) w.
Proof.
  unfold get_token, now.
  destruct (lookup_record token_type w) as [data|] eqn:Hlook; [|discriminate].
  destruct (decide (data = ∅)); [discriminate|].
  destruct (expires_at_of data) as [expires_at|] eqn:Hexp; [|discriminate].
  cbn.
  destruct (decide (clock (ticks w) > expires_at)) as [Hgt|Hle]; [discriminate|].
  destruct (data !! "token") as [[| | |ciphertext| | |]|] eqn:Htok; try discriminate.
  intros [= <- Hs]. exists data, expires_at, ciphertext.
  repeat split; try assumption; try reflexivity; lia.
Qed.

(** X8. [get_token] gives out a secret only for a live record: when it
    returns [s], the lookup found a record whose expiry date the clock has
    not passed and whose stored ciphertext decrypts to [s], and nothing but
    the clock reading has changed.  And whatever it returns, the stores
    change only when the record found had expired. *)
Theorem get_token_sound (token_type : string) (w w' : World) (result : option string) :
  get_token token_type w = (w', result) ->
  (forall s, result = Some s ->
     exists (data : pydict) (expires_at : Z) (ciphertext : string),
       lookup_record token_type w = Some data
       /\ expires_at_of data = Some expires_at
       /\ clock (ticks w) <= expires_at
       /\ data !! "token" = Some (PStr ciphertext)
       /\ decrypt ciphertext = Some s
       /\ w' = set_ticks (S (ticks w)) w)
  /\ (same_stores w w'
      \/ exists (data : pydict) (expires_at : Z),
           lookup_record token_type w = Some data
           /\ expires_at_of data = Some expires_at
           /\ clock (ticks w) > expires_at
           /\ result = None).
Proof.
  unfold get_token, now.
  destruct (lookup_record token_type w) as [data|] eqn:Hlook;
    [|intros [= <- <-]; split; [discriminate | left; split; reflexivity]].
  destruct (decide (data = ∅));
    [intros [= <- <-]; split; [discriminate | left; split; reflexivity]|].
  destruct (expires_at_of data) as [expires_at|] eqn:Hexp;
    [|intros [= <- <-]; split; [discriminate | left; split; reflexivity]].
  cbn.
  destruct (decide (clock (ticks w) > expires_at)) as [Hgt|Hle].
  - intros [= <- <-]. split; [discriminate|]. right.
    exists data, expires_at. repeat split; assumption || reflexivity.
  - destruct (data !! "token") as [[| | |ciphertext| | |]|] eqn:Htok;
      intros [= <- <-]; (split; [|left; split; reflexivity]); try discriminate.
    intros s Hs. exists data, expires_at, ciphertext.
    repeat split; try assumption; try reflexivity; lia.
Qed.

(** X6. [get_token_info] does not fall back to the file.  With a Redis
    client whose cache has no entry for the access token, while the file
    holds a live one: [get_token] returns the token from the file, but
    [get_token_info] finds nothing, so [get_valid_token] goes to
    [refresh_access_token] whatever lifetime the token has left. *)
Theorem redis_miss_forces_refresh
    (w : World) (r : gmap string (pydict * Z)) (data : pydict) (expires_at : Z)
    (ciphertext access_token : string) :
  redis w = Some r ->
  r !! redis_key "access" = None ->
  token_file w !! "access" = Some data ->
  expires_at_of data = Some expires_at ->
  clock (ticks w) <= expires_at ->
  data !! "token" = Some (PStr ciphertext) ->
  decrypt ciphertext = Some access_token ->
  access_token <> "" ->
  get_token "access" w = (set_ticks (S (ticks w)) w, Some access_token)
  /\ get_token_info "access" (set_ticks (S (ticks w)) w) = (set_ticks (S (ticks w)) w, None)
  /\ get_valid_token w = refresh_access_token (set_ticks (S (ticks w)) w).
Proof.
  intros Er Hmiss Hfile Hexp Hlive Htok Hdec Hne.
  assert (lookup_record "access" w = Some data) as Hlook.
  { unfold lookup_record, _load_from_file, _load_all_tokens. rewrite Er, Hmiss. exact Hfile. }
  destruct (get_token_lazy_expiry_aux _ _ _ _ Hlook Hexp) as [_ Hget].
  specialize (Hget Hlive _ Htok). rewrite Hdec in Hget.
  assert (get_token_info "access" (set_ticks (S (ticks w)) w)
          = (set_ticks (S (ticks w)) w, None)) as Hinfo.
  { unfold get_token_info, lookup_info_record. cbn. rewrite Er, Hmiss. reflexivity. }
  split; [exact Hget|]. split; [exact Hinfo|].
  unfold get_valid_token. rewrite Hget.
  destruct access_token as [|c rest]; [contradiction|].
  rewrite Hinfo. reflexivity.
Qed.

(** [save_token] makes no call to the token endpoint. *)
Lemma save_token_posts
    (token_type token : string) (expires_in : Z) (additional_data : option pydict)
    (w : World) :
  token_posts (save_token token_type token expires_in additional_data w).1 = token_posts w.
Proof.
  unfold save_token, now, encrypt, _save_to_file, _save_all_tokens. cbn.
  destruct (datetime_add _ _); [|reflexivity].
  destruct (redis w); [destruct (decide (0 < expires_in))|]; reflexivity.
Qed.

Section RoundTripMore.

Hypothesis fernet_round_trip :
  forall (key : string) (iv : nat) (data : string),
    fernet_decrypt key (fernet_encrypt key iv data) = Some data.

(** After a successful [save_token], both lookups find the record that was
    written. *)
Lemma save_token_then_lookup
    (token_type token : string) (expires_in : Z) (additional_data : option pydict)
    (w w' : World) :
  save_token token_type token expires_in additional_data w = (w', true) ->
  exists data : pydict,
    lookup_record token_type w' = Some data
    /\ lookup_info_record token_type w' = Some data
    /\ data !! "token" = Some (PStr (fernet_encrypt fernet_key (encryptions w) token))
    /\ decrypt (fernet_encrypt fernet_key (encryptions w) token) = Some token
    /\ ticks w' = S (S (ticks w))
    /\ token_posts w' = token_posts w
    /\ ((default ∅ additional_data : pydict) !! "expires_at" = None ->
        expires_at_of data = Some (clock (ticks w) + seconds expires_in)).
Proof.
  intros Hsave.
  assert (token_posts w' = token_posts w) as Hposts.
  { revert Hsave. unfold save_token, now, encrypt, _save_to_file, _save_all_tokens. cbn.
    destruct (datetime_add _ _); [|discriminate].
    destruct (redis w); [destruct (decide (0 < expires_in)); [|discriminate]|];
      intros [= <-]; reflexivity. }
  destruct (save_token_stores _ _ _ _ _ _ Hsave) as (data & Hfile & Hredis & Htok & Hticks & Hexp).
  assert (data <> ∅) as Hne.
  { intros ->. rewrite lookup_empty in Htok. discriminate. }
  exists data.
  unfold lookup_record, lookup_info_record, _load_from_file, _load_all_tokens.
  destruct (redis w') as [r|].
  - rewrite (Hredis r eq_refl). cbn.
    destruct (decide (data = ∅)); [contradiction|].
    repeat split; auto. apply fernet_round_trip.
  - repeat split; auto. apply fernet_round_trip.
Qed.

(** X7. [TokenManager.refresh_token] extends a token without changing its
    secret.  When no live token of the type is found it answers [False] and
    saves nothing.  When a token is found and the save succeeds: the record
    now expires [new_expires_in] seconds after the clock reading of the
    save, a lookup before that date returns the same secret, and the record
    holds only the keys [token], [expires_at], [created_at] and [type]: the
    metadata saved with the token before (token type, scope) is gone. *)
Theorem refresh_token_keeps_secret (token_type : string) (new_expires_in : Z) (w : World) :
  ((get_token token_type w).2 = None ->
   refresh_token token_type new_expires_in w = ((get_token token_type w).1, false))
  /\ (forall (w1 w' : World) (token : string),
        get_token token_type w = (w1, Some token) ->
        token <> "" ->
        refresh_token token_type new_expires_in w = (w', true) ->
        exists data : pydict,
          lookup_record token_type w' = Some data
          /\ expires_at_of data = Some (clock (ticks w1) + seconds new_expires_in)
          /\ (forall key, key ∉ ["token"; "expires_at"; "created_at"; "type"] ->
                          data !! key = None)
          /\ (clock (ticks w') <= clock (ticks w1) + seconds new_expires_in ->
              (get_token token_type w').2 = Some token)).
Proof.
  split.
  - unfold refresh_token. destruct (get_token token_type w) as [w1 [tok|]]; cbn;
      [discriminate | reflexivity].
  - intros w1 w' token Hget Hne. unfold refresh_token. rewrite Hget.
    destruct token as [|c rest]; [contradiction|]. intros Hsave.
    destruct (save_token_then_lookup _ _ _ _ _ _ Hsave)
      as (data & Hlook & _ & Htok & Hdec & _ & _ & Hexp).
    exists data. split; [exact Hlook|]. split; [apply Hexp; apply lookup_empty|].
    split.
    + intros key Hkey.
      revert Hsave Hlook. unfold save_token, now, encrypt, _save_to_file, _save_all_tokens,
        _load_all_tokens. cbn.
      destruct (datetime_add _ _) as [expires_at|]; [|discriminate].
      assert (forall ct t1 t2 ty,
                (<["token" := PStr ct]>
                   ({[ "token" := PStr (String c rest); "expires_at" := PIso t1;
                       "created_at" := PIso t2; "type" := PStr ty ]} : pydict)) !! key
                = None) as Hkeys.
      { intros. rewrite !not_elem_of_cons in Hkey.
        destruct Hkey as (H1 & H2 & H3 & H4 & _).
        rewrite !lookup_insert_ne by congruence.
        apply lookup_singleton_ne. congruence. }
      destruct (redis w1) as [r|] eqn:Er.
      * destruct (decide (0 < new_expires_in)); [|discriminate].
        intros [= <-]. unfold lookup_record, _load_from_file, _load_all_tokens. cbn.
        rewrite lookup_insert_eq. cbn.
        destruct (decide _); [|intros [= <-]; apply Hkeys].
        rewrite lookup_insert_eq. intros [= <-]. apply Hkeys.
      * intros [= <-]. unfold lookup_record, _load_from_file, _load_all_tokens. cbn.
        rewrite Er. rewrite lookup_insert_eq. intros [= <-]. apply Hkeys.
    + intros Hclock.
      destruct (get_token_lazy_expiry_aux token_type w' data _ Hlook
                  (Hexp (lookup_empty _))) as [_ Hlive].
      rewrite (Hlive Hclock _ Htok). exact Hdec.
Qed.

(** X10. After a code exchange, the token is served from the store.  When
    the token endpoint answers the exchange with a body that holds a
    non-empty access token, and the save is possible (expiry date in range;
    a positive lifetime if Redis is configured): the exchange returns the
    body after exactly one POST, and as long as the clock stays 301 seconds
    or more before the expiry date, [get_valid_token] returns that access
    token from the store, with no further call to the token endpoint. *)
Theorem exchange_then_valid_token
    (authorization_code : string) (w : World) (td : token_data) (access_token : string) :
  token_endpoint (token_posts w) "authorization_code" authorization_code = PostOk (Ret td) ->
  td_access_token td = Some access_token ->
  access_token <> "" ->
  is_Some (datetime_add (clock (ticks w)) (seconds (default 7200 (td_expires_in td)))) ->
  redis w = None \/ 0 < default 7200 (td_expires_in td) ->
  (forall n, clock n + seconds 301
             <= clock (ticks w) + seconds (default 7200 (td_expires_in td))) ->
  (exchange_code_for_token authorization_code w).2 = Ret td
  /\ token_posts (exchange_code_for_token authorization_code w).1 = S (token_posts w)
  /\ get_valid_token (exchange_code_for_token authorization_code w).1
     = (set_ticks (3 + ticks (exchange_code_for_token authorization_code w).1)
          (exchange_code_for_token authorization_code w).1,
        Ret access_token).
Proof.
  intros Hpost Htd Hne Hrange Hredis Hclock.
  unfold exchange_code_for_token. rewrite Hpost. cbn [fst snd].
  set (w0 := emit (EvTokenPost "authorization_code") (set_token_posts (S (token_posts w)) w)).
  destruct (save_token_succeeds "access" access_token (default 7200 (td_expires_in td))
              (Some {[ "token_type" := PStr (default "Bearer" (td_token_type td));
                       "scope" := PStr (default "" (td_scope td)) ]}) w0 Hrange Hredis)
    as [wa Hsave].
  destruct (save_token_then_lookup _ _ _ _ _ _ Hsave)
    as (data & Hlook & Hinfo & Htok & Hdec & _ & Hposts & Hexp).
  assert (expires_at_of data
          = Some (clock (ticks w) + seconds (default 7200 (td_expires_in td)))) as Hexp'.
  { apply Hexp. cbn. rewrite lookup_insert_ne by discriminate.
    apply lookup_singleton_ne. discriminate. }
  set (w1 := _save_tokens td w0).
  assert (lookup_record "access" w1 = Some data
          /\ lookup_info_record "access" w1 = Some data
          /\ token_posts w1 = S (token_posts w)) as (Hlook1 & Hinfo1 & Hposts1).
  { subst w1. unfold _save_tokens. rewrite Htd, Hsave. cbn [fst].
    destruct (td_refresh_token td) as [rt|].
    - destruct (save_token_frame "refresh" "access" rt 2592000 None wa) as [-> ->];
        [discriminate|].
      split; [assumption|]. split; [assumption|].
      rewrite save_token_posts, Hposts. reflexivity.
    - rewrite Hposts. auto. }
  split; [reflexivity|]. split; [exact Hposts1|].
  destruct (get_valid_token_with_record w1 data _ _ access_token
              Hlook1 Hinfo1 Hexp' Htok Hdec Hne) as [Hcached _].
  - pose proof (Hclock (ticks w1)). unfold seconds, second in *. lia.
  - apply Hcached. pose proof (Hclock (2 + ticks w1)%nat). lia.
Qed.

End RoundTripMore.

(** X9. Every failure of [exchange_code_for_token] is an
    [AuthenticationError] (never the [TokenExpiredError] of the refresh
    path), raised after exactly one POST to the token endpoint, and it
    leaves the stored tokens alone; when the endpoint answers with an HTTP
    error status, the message carries that status. *)
Theorem exchange_code_failures (authorization_code : string) (w w' : World) (e : exn) :
  exchange_code_for_token authorization_code w = (w', Raise e) ->
  exn_cls e = AuthenticationError
  /\ isinstance e TokenExpiredError = false
  /\ same_stores w w'
  /\ token_posts w' = S (token_posts w)
  /\ (forall status text,
        token_endpoint (token_posts w) "authorization_code" authorization_code
        = PostStatusError status text ->
        exn_str e = FCat (FStr "Token exchange failed: ") (FInt status)).
Proof.
  unfold exchange_code_for_token.
  destruct (token_endpoint _ _ _) as [e0|status text|[td|e0]]; intros [= <- <-];
    repeat split; try reflexivity; try discriminate.
  intros status' text' [= <- _]. reflexivity.
Qed.

(** X11. A refresh that the token endpoint answers without a new refresh
    token returns the new access token after exactly one POST and keeps the
    stored refresh token: both lookups of the refresh token find afterwards
    what they found before. *)
Theorem refresh_without_rotation
    (w w1 : World) (rt : string) (td : token_data) (access_token : string) :
  get_token "refresh" w = (w1, Some rt) ->
  rt <> "" ->
  token_endpoint (token_posts w1) "refresh_token" rt = PostOk (Ret td) ->
  td_access_token td = Some access_token ->
  td_refresh_token td = None ->
  (refresh_access_token w).2 = Ret access_token
  /\ lookup_record "refresh" (refresh_access_token w).1 = lookup_record "refresh" w
  /\ lookup_info_record "refresh" (refresh_access_token w).1
     = lookup_info_record "refresh" w
  /\ token_posts (refresh_access_token w).1 = S (token_posts w).
Proof.
  intros Hget Hne Hpost Htd Hrot.
  destruct (get_token_some _ _ _ _ Hget) as (data & e & c & _ & _ & _ & _ & _ & ->).
  unfold refresh_access_token. rewrite Hget.
  destruct rt as [|ch rest]; [contradiction|].
  rewrite Hpost, Htd. cbn [fst snd].
  unfold _save_tokens. rewrite Htd, Hrot.
  set (w2 := emit _ _).
  destruct (save_token_frame "access" "refresh" access_token
              (default 7200 (td_expires_in td))
              (Some {[ "token_type" := PStr (default "Bearer" (td_token_type td));
                       "scope" := PStr (default "" (td_scope td)) ]}) w2) as [-> ->];
    [discriminate|].
  split; [reflexivity|]. split; [reflexivity|]. split; [reflexivity|].
  rewrite save_token_posts. reflexivity.
Qed.

(** ** More on the request pipeline *)

(** The token store and the authentication manager never touch the state
    of the client. *)
Lemma save_token_client_state
    (token_type token : string) (expires_in : Z) (additional_data : option pydict)
    (w : World) :
  client_state (save_token token_type token expires_in additional_data w).1 = client_state w.
Proof.
  unfold save_token, now, encrypt, _save_to_file, _save_all_tokens. cbn.
  destruct (datetime_add _ _); [|reflexivity].
  destruct (redis w); [destruct (decide (0 < expires_in))|]; reflexivity.
Qed.

Lemma delete_token_client_state (token_type : string) (w : World) :
  client_state (delete_token token_type w) = client_state w.
Proof.
  unfold delete_token, _save_all_tokens, _load_all_tokens.
  destruct (redis w); cbn; destruct (_ !! token_type); reflexivity.
Qed.

Lemma get_token_client_state (token_type : string) (w : World) :
  client_state (get_token token_type w).1 = client_state w.
Proof.
  unfold get_token, now.
  destruct (lookup_record token_type w) as [data|]; [|reflexivity].
  destruct (decide (data = ∅)); [reflexivity|].
  destruct (expires_at_of data); [|reflexivity]. cbn.
  destruct (decide _); [cbn; rewrite delete_token_client_state; reflexivity|].
  destruct (data !! "token") as [[]|]; reflexivity.
Qed.

Lemma get_token_info_client_state (token_type : string) (w : World) :
  client_state (get_token_info token_type w).1 = client_state w.
Proof.
  unfold get_token_info, now.
  destruct (lookup_info_record token_type w) as [data|]; [|reflexivity].
  destruct (decide (data = ∅)); [reflexivity|].
  destruct (expires_at_of _); reflexivity.
Qed.

Lemma clear_all_client_state (w : World) : client_state (clear_all w) = client_state w.
Proof. unfold clear_all. destruct (redis w); reflexivity. Qed.

Lemma save_tokens_client_state (td : token_data) (w : World) :
  client_state (_save_tokens td w) = client_state w.
Proof.
  unfold _save_tokens.
  destruct (td_refresh_token td); destruct (td_access_token td);
    rewrite ?save_token_client_state; reflexivity.
Qed.

Lemma refresh_access_token_client_state (w : World) :
  client_state (refresh_access_token w).1 = client_state w.
Proof.
  unfold refresh_access_token.
  pose proof (get_token_client_state "refresh" w) as Hget.
  destruct (get_token "refresh" w) as [w1 [[|c rest]|]]; cbn in Hget; try exact Hget.
  destruct (token_endpoint _ _ _) as [e|status text|[td|e]]; cbn;
    rewrite ?clear_all_client_state; try exact Hget.
  destruct (td_access_token td); cbn; rewrite save_tokens_client_state; exact Hget.
Qed.

Lemma get_async_auth_headers_client_state (w : World) :
  client_state (get_async_auth_headers w).1 = client_state w.
Proof.
  unfold get_async_auth_headers, get_valid_token.
  pose proof (get_token_client_state "access" w) as Hget.
  destruct (get_token "access" w) as [w1 [[|c rest]|]]; cbn in Hget; try exact Hget.
  pose proof (get_token_info_client_state "access" w1) as Hinfo.
  destruct (get_token_info "access" w1) as [w2 info]; cbn in Hinfo.
  destruct (outside_margin info); [cbn; congruence|].
  pose proof (refresh_access_token_client_state w2) as Href.
  destruct (refresh_access_token w2) as [w3 [tok|e]]; cbn in *; congruence.
Qed.

(** X13. A failure of the authentication manager is not retried: when
    [get_async_auth_headers] raises, [request] raises the same exception,
    unchanged, whatever the retry budget; no HTTP attempt is made, and the
    call has been counted by the self-throttle. *)
Theorem request_auth_failure_propagates
    (a : request_args) (retry_count : option Z) (w w1 : World) (e : exn) :
  get_async_auth_headers (_handle_rate_limit w) = (w1, Raise e) ->
  request a retry_count w = Some (w1, Raise e)
  /\ http_calls w1 = http_calls w
  /\ _requests_this_minute w1 = _requests_this_minute (throttle w) + 1.
Proof.
  intros Hauth. split.
  - unfold request, request_depth. rewrite request_fuel_S, Hauth. reflexivity.
  - pose proof (get_async_auth_headers_client_state (_handle_rate_limit w)) as Hst.
    rewrite Hauth in Hst. cbn [fst] in Hst. unfold client_state in Hst.
    injection Hst as H1 H2 H3. rewrite H1, H3.
    split; [|reflexivity].
    unfold _handle_rate_limit, throttle, now. cbn.
    destruct (_rate_limit_reset w); repeat (case_decide; cbn); reflexivity.
Qed.

(** X12. A success status ends the call after a single attempt, whatever
    the retry budget, when [response.json()] returns or raises
    [JSONDecodeError]: for 200 and 201 the result is the decoded body, or,
    for a body that is not JSON, the envelope
    [{'message': 'Success' | 'Created', 'data': text}]; for 204 it is
    [{'message': 'No Content'}], and the body is not read.  Any other
    exception of [response.json()] (a body that is not UTF-8) is not
    replaced by the envelope: it is handled like a failure of the
    transport, and with a budget of 0 the call raises [NetworkError] with
    its text after this attempt. *)
Theorem request_success_status
    (a : request_args) (retry_count : option Z) (w w1 : World)
    (auth_headers : gmap string string) (response : Response) :
  get_async_auth_headers (_handle_rate_limit w) = (w1, Ret auth_headers) ->
  admin_api (http_calls w1) (method a) (request_url a) = HttpResponse response ->
  status_code response ∈ [200; 201; 204] ->
  (status_code response = 204 \/ (forall e, json response <> JsonRaises e) ->
   request a retry_count w
   = Some (emit (EvRequest (method a) (request_url a))
                (set_http_calls (S (http_calls w1)) w1),
           Ret (if decide (status_code response = 204)
                then PDict [("message", PStr "No Content")]
                else match json response with
                     | JsonValue v => v
                     | _ => envelope (if decide (status_code response = 200)
                                      then "Success" else "Created") (text response)
                     end)))
  /\ (forall e,
        status_code response <> 204 ->
        json response = JsonRaises e ->
        request a (Some 0) w
        = Some (emit (EvRequest (method a) (request_url a))
                     (set_http_calls (S (http_calls w1)) w1),
                Raise (new_exn NetworkError
                         (if isinstance e TimeoutError then FStr "Request timeout"
                          else exn_str e)))).
Proof.
  intros Hauth Hresp Hin.
  rewrite !elem_of_cons, elem_of_nil in Hin.
  split.
  - intros Hjson.
    unfold request, request_depth. rewrite request_fuel_S, Hauth.
    cbv zeta. rewrite Hresp. unfold try_body, json_or_envelope.
    destruct Hin as [Hst|[Hst|[Hst|[]]]]; rewrite Hst in *; cbn;
      try reflexivity;
      (destruct Hjson as [?|Hjson]; [discriminate|]);
      (destruct (json response) as [v| |e]; [reflexivity | reflexivity |]);
      exfalso; exact (Hjson e eq_refl).
  - intros e Hne Hjson.
    unfold request, request_depth.
    change (default (max_retries settings) (Some 0)) with 0.
    rewrite request_fuel_S, Hauth.
    cbv zeta. rewrite Hresp. unfold try_body, json_or_envelope. rewrite Hjson.
    destruct Hin as [Hst|[Hst|[Hst|[]]]]; [| |contradiction];
      rewrite Hst; unfold except_clauses;
      repeat (case_decide; try lia);
      destruct (isinstance e TimeoutError);
      rewrite ?bool_decide_eq_false_2 by lia;
      repeat (case_decide; try lia); reflexivity.
Qed.








Section OneWindow.

(** A window that was opened at [r], before every reading of the clock
    that the call makes, and that none of these readings has left. *)
Variable r : Z.
Hypothesis clock_in_window : forall n, r < clock n < r + seconds 60.





End OneWindow.


(** X16. The only exceptions that leave [request] are the [NetworkError]
    built by its [except] clauses and the [AuthenticationError] or
    [TokenExpiredError] raised by the authentication manager before the
    [try] statement.  No [APIError], [RateLimitError], [ValidationError] or
    exception of the HTTP library reaches the caller. *)
Theorem request_exception_classes
    (a : request_args) (retry_count : option Z) (w w' : World) (e : exn) :
  request a retry_count w = Some (w', Raise e) ->
  exn_cls e ∈ [NetworkError; AuthenticationError; TokenExpiredError]
  /\ isinstance e APIError = false
  /\ isinstance e ValidationError = false.
Proof.
  intros H. apply request_fuel_raises in H.
  unfold isinstance. destruct H as [-> | [-> | ->]];
    (split; [set_solver | split; reflexivity]).
Qed.

(** More fuel does not change a result. *)
Lemma try_body_mono (retry retry' : World -> option (World * res pyval)) (retry_count : Z)
    (outcome : http_outcome) (w : World) (x : World * res pyval) :
  (forall w0 x0, retry w0 = Some x0 -> retry' w0 = Some x0) ->
  try_body retry retry_count outcome w = Some x ->
  try_body retry' retry_count outcome w = Some x.
Proof.
  intros Hmono. unfold try_body.
  destruct outcome as [e|response]; [auto|].
  repeat case_decide; auto.
  - destruct (refresh_access_token w) as [w1 [tok|e]]; [|auto].
    destruct (retry w1) as [x1|] eqn:Hr; [|discriminate].
    rewrite (Hmono _ _ Hr). auto.
  - destruct (retry_after_of response); auto.
Qed.

Lemma except_clauses_mono (retry retry' : World -> option (World * res pyval))
    (retry_count : Z) (attempt : option (World * res pyval)) (x : World * res pyval) :
  (forall w0 x0, retry w0 = Some x0 -> retry' w0 = Some x0) ->
  except_clauses retry retry_count attempt = Some x ->
  except_clauses retry' retry_count attempt = Some x.
Proof.
  intros Hmono. unfold except_clauses.
  destruct attempt as [[w0 [v|e]]|]; auto.
  destruct (isinstance e TimeoutError).
  - destruct (decide (retry_count > 0)); auto.
  - destruct (_ && _); auto.
Qed.

Lemma request_fuel_mono (fuel : nat) (a : request_args) (retry_count : Z) (w : World)
    (x : World * res pyval) :
  request_fuel fuel a retry_count w = Some x ->
  request_fuel (S fuel) a retry_count w = Some x.
Proof.
  revert retry_count w x.
  induction fuel as [|fuel IH]; intros rc w x; [discriminate|].
  rewrite (request_fuel_S (S fuel)), (request_fuel_S fuel).
  destruct (get_async_auth_headers (_handle_rate_limit w)) as [w1 [auth_headers|e]]; [|auto].
  cbv zeta. intros H.
  destruct (try_body (request_fuel fuel a (rc - 1)) rc _ _) as [x1|] eqn:Hbody;
    [|discriminate].
  rewrite (try_body_mono _ (request_fuel (S fuel) a (rc - 1)) _ _ _ _ (fun w0 x0 => IH _ w0 x0)
             Hbody).
  eapply except_clauses_mono; [|exact H]. intros w0 x0. apply IH.
Qed.

(** X17. [request] always terminates: the recursion is at most
    [retry_count + 2] calls deep (the budget goes down by one at each
    retry, and below 1 only the refresh after a 401 at the initial budget
    retries once more), so that the call returns a value or raises; bounding
    the depth by any larger number gives the same outcome. *)
Theorem request_terminates
    (a : request_args) (retry_count : option Z) (w : World) (fuel : nat) :
  (request_depth (default (max_retries settings) retry_count) <= fuel)%nat ->
  is_Some (request a retry_count w)
  /\ request_fuel fuel a (default (max_retries settings) retry_count) w
     = request a retry_count w.
Proof.
  intros Hfuel. split; [apply request_fuel_enough; lia|].
  unfold request.
  set (rc := default (max_retries settings) retry_count) in *.
  destruct (request_fuel_enough a rc (request_depth rc) w) as [x Hx]; [lia|].
  rewrite Hx. clear -Hfuel Hx.
  induction Hfuel as [|fuel Hle IH]; [exact Hx|].
  apply request_fuel_mono. exact IH.
Qed.

(** X18. The URL of a request: an endpoint that starts with [http] is used
    as it is; any other endpoint is appended to the base URL and [/admin/]
    after its leading slashes are removed, so that one more slash in front
    of the endpoint gives the same URL, and the path after [/admin/] never
    starts with a slash. *)
Theorem request_url_leading_slash (a : request_args) :
  (String.prefix "http" (endpoint a) = true -> request_url a = endpoint a)
  /\ (String.prefix "http" (endpoint a) = false ->
      request_url a
      = String.app (cafe24_base_url settings)
          (String.app "/admin/" (lstrip_slash (endpoint a)))
      /\ request_url (mk_request_args (method a) (String "/" (endpoint a)) (params a)
                        (data a) (json_data a) (extra_headers a))
         = request_url a
      /\ String.prefix "/" (lstrip_slash (endpoint a)) = false).
Proof.
  unfold request_url. split.
  - intros ->. reflexivity.
  - intros Hp. rewrite Hp. split; [reflexivity|]. split; [reflexivity|].
    generalize (endpoint a). clear. intros s.
    induction s as [|c s IH]; [reflexivity|].
    cbn [lstrip_slash].
    destruct c as [[] [] [] [] [] [] [] []]; try reflexivity. exact IH.
Qed.

(** ** The callers *)

Lemma res_bind_raises {A B : Type} (r : res A) (f : A -> res B) (e : exn) (P : exn -> Prop) :
  res_bind r f = Raise e ->
  (forall e0, r = Raise e0 -> P e0) ->
  (forall a e0, r = Ret a -> f a = Raise e0 -> P e0) ->
  P e.
Proof. destruct r as [a|e0]; cbn; intros H H1 H2; [eauto | injection H as <-; eauto]. Qed.

(** The dynamic operations raise exceptions of Python itself. *)
Lemma py_contains_raises (isoformat : Z -> string) (k : string) (v : pyval) (e : exn) :
  py_contains isoformat k v = Raise e -> builtin_error e.
Proof. destruct v; cbn; intros [= <-]; split; reflexivity. Qed.

Lemma py_getitem_raises (v : pyval) (k : string) (e : exn) :
  py_getitem v k = Raise e -> builtin_error e.
Proof.
  destruct v as [| | | | | |items]; cbn; try (intros [= <-]; split; reflexivity).
  destruct (items_get k items); intros [= <-]; split; reflexivity.
Qed.

Lemma py_first_raises (isoformat : Z -> string) (v : pyval) (e : exn) :
  py_first isoformat v = Raise e -> builtin_error e.
Proof.
  destruct v as [| | |s|t|l|items]; cbn; try (intros [= <-]; split; reflexivity).
  - destruct (str_chars s); intros [= <-]; split; reflexivity.
  - destruct (str_chars (isoformat t)); intros [= <-]; split; reflexivity.
  - destruct l; intros [= <-]; split; reflexivity.
Qed.

Lemma py_get_raises (v : pyval) (k : string) (d : pyval) (e : exn) :
  py_get v k d = Raise e -> builtin_error e.
Proof. destruct v; cbn; intros [= <-]; split; reflexivity. Qed.

Lemma py_len_raises (isoformat : Z -> string) (v : pyval) (e : exn) :
  py_len isoformat v = Raise e -> builtin_error e.
Proof. destruct v; cbn; intros [= <-]; split; reflexivity. Qed.

Lemma request_raises_builtin (a : request_args) (retry_count : option Z)
    (w w' : World) (e : exn) :
  request a retry_count w = Some (w', Raise e) -> builtin_error e.
Proof.
  intros H. apply request_fuel_raises in H.
  unfold builtin_error, isinstance. destruct H as [-> | [-> | ->]]; split; reflexivity.
Qed.

(** The [except] clauses of [get_product] on an exception that is no
    [APIError]. *)
Lemma except_not_found_builtin (not_found : pyval) (what : string) (e : exn) :
  builtin_error e ->
  except_not_found not_found what (Raise e) = Raise (api_failed what e).
Proof. intros [H _]. unfold except_not_found. rewrite H. reflexivity. Qed.

Lemma except_not_found_raises (not_found : pyval) (what : string) (body : res pyval)
    (e : exn) :
  (forall e0, body = Raise e0 -> builtin_error e0) ->
  except_not_found not_found what body = Raise e ->
  exists cause, body = Raise cause /\ e = api_failed what cause.
Proof.
  intros Hbody. destruct body as [v|e0]; [discriminate|].
  rewrite except_not_found_builtin by auto. intros [= <-]. eauto.
Qed.

(** X19. A product that does not exist is an error, not [None].  The
    clause [except APIError] of [get_product] and [get_product_variants],
    which would answer [None] (or the empty list) for status 404, is never
    entered, since no [APIError] leaves [request]: whenever the request
    fails, and so after a 404, the two methods raise an [APIError] that
    wraps the text of the failure; and every exception that leaves them is
    such an [APIError], without status code and response data. *)
Theorem not_found_is_an_error
    (isoformat : Z -> string) (product_no : string) (w w' : World) :
  (forall cause,
     client_get (String.app "products/" product_no) None w = Some (w', Raise cause) ->
     get_product isoformat product_no w
     = Some (w', Raise (api_failed "Failed to retrieve product: " cause)))
  /\ (forall cause,
        client_get (String.app "products/" (String.app product_no "/variants")) None w
        = Some (w', Raise cause) ->
        get_product_variants product_no w
        = Some (w', Raise (api_failed "Failed to retrieve product variants: " cause)))
  /\ (forall e,
        get_product isoformat product_no w = Some (w', Raise e)
        \/ get_product_variants product_no w = Some (w', Raise e) ->
        exn_cls e = APIError /\ exn_status_code e = None /\ exn_response_data e = None
        /\ exists cause what, exn_str e = FCat (FStr what) (exn_str cause)).
Proof.
  split; [|split].
  - intros cause Hreq. unfold get_product. rewrite Hreq. cbn [res_bind].
    rewrite except_not_found_builtin; [reflexivity|].
    exact (request_raises_builtin _ _ _ _ _ Hreq).
  - intros cause Hreq. unfold get_product_variants. rewrite Hreq. cbn [res_bind].
    rewrite except_not_found_builtin; [reflexivity|].
    exact (request_raises_builtin _ _ _ _ _ Hreq).
  - intros e [H|H].
    + unfold get_product in H.
      destruct (client_get _ None w) as [[w1 outcome]|] eqn:Hreq; [|discriminate].
      injection H as _ H.
      apply except_not_found_raises in H.
      * destruct H as (cause & _ & ->). repeat split; eauto.
      * intros e0 Hb. apply (res_bind_raises _ _ _ _ Hb).
        { intros e1 ->. exact (request_raises_builtin _ _ _ _ _ Hreq). }
        intros response e1 _ Hb1. apply (res_bind_raises _ _ _ _ Hb1).
        { intros e2. apply py_contains_raises. }
        intros [] e2 _; [apply py_getitem_raises|].
        intros Hb2. apply (res_bind_raises _ _ _ _ Hb2).
        { intros e3. apply py_contains_raises. }
        intros [] e3 _; [|discriminate].
        intros Hb3. apply (res_bind_raises _ _ _ _ Hb3).
        { intros e4. apply py_getitem_raises. }
        intros products e4 _. destruct (py_bool isoformat products); [|discriminate].
        apply py_first_raises.
    + unfold get_product_variants in H.
      destruct (client_get _ None w) as [[w1 outcome]|] eqn:Hreq; [|discriminate].
      injection H as _ H.
      apply except_not_found_raises in H.
      * destruct H as (cause & _ & ->). repeat split; eauto.
      * intros e0 Hb. apply (res_bind_raises _ _ _ _ Hb).
        { intros e1 ->. exact (request_raises_builtin _ _ _ _ _ Hreq). }
        intros response e1 _. apply py_get_raises.
Qed.

(** X20. [update_product] checks its input before it does anything: with
    no updates ([None], an empty dictionary, any false value) it raises
    [ValidationError] and the world is untouched, no request is counted or
    sent.  With updates it always comes back, and then the answer is [True]
    or an [APIError] that wraps the failure of the request: it never
    answers [False], and never raises [ValidationError].  The same holds for
    [update_product_stock], whose updates are never empty. *)
Theorem update_product_outcomes
    (isoformat : Z -> string) (product_no : string) (updates : pyval) (shop_no : Z)
    (w : World) :
  (py_bool isoformat updates = false ->
   update_product isoformat product_no updates shop_no w
   = Some (w, Raise (new_exn ValidationError (FStr "No updates provided"))))
  /\ (py_bool isoformat updates = true ->
      exists w' r,
        update_product isoformat product_no updates shop_no w = Some (w', r)
        /\ (r = Ret true
            \/ exists cause,
                 r = Raise (api_failed "Failed to update product: " cause)
                 /\ builtin_error cause))
  /\ (forall stock_quantity,
      exists w' r,
        update_product_stock isoformat product_no stock_quantity shop_no w = Some (w', r)
        /\ (r = Ret true
            \/ exists cause,
                 r = Raise (api_failed "Failed to update product: " cause)
                 /\ builtin_error cause)).
Proof.
  assert (forall updates',
            py_bool isoformat updates' = true ->
            exists w' r,
              update_product isoformat product_no updates' shop_no w = Some (w', r)
              /\ (r = Ret true
                  \/ exists cause,
                       r = Raise (api_failed "Failed to update product: " cause)
                       /\ builtin_error cause)) as Hsome.
  { intros updates' Hb. unfold update_product. rewrite Hb.
    destruct (request_total
                (mk_request_args "PUT" (String.app "products/" product_no) None None
                   (Some (PDict [("shop_no", PInt shop_no); ("request", updates')])) None)
                None w) as [[w' [v|e]] Hreq];
      unfold client_put; rewrite Hreq.
    - exists w', (Ret true). auto.
    - exists w', (Raise (api_failed "Failed to update product: " e)).
      split; [reflexivity|]. right. exists e. split; [reflexivity|].
      exact (request_raises_builtin _ _ _ _ _ Hreq). }
  split; [|split].
  - intros Hb. unfold update_product. rewrite Hb. reflexivity.
  - apply Hsome.
  - intros stock_quantity. apply Hsome. reflexivity.
Qed.

(** One turn of the loop of [get_all_products] on a page that was served. *)
Lemma get_all_products_loop_S
    (isoformat : Z -> string) (fuel : nat) (batch_size : Z) (fields : option (list string))
    (progress_callback : option (Z -> Z -> bool)) (all_products : list pyval)
    (offset total_fetched : Z) (w w' : World) (result : pyval) (page : list pyval) :
  (forall callback, progress_callback = Some callback -> forall n m, callback n m = true) ->
  get_products isoformat batch_size offset fields [] w = Some (w', Ret result) ->
  py_get result "products" (PList []) = Ret (PList page) ->
  get_all_products_loop isoformat (S fuel) batch_size fields progress_callback
    all_products offset total_fetched w
  = if decide (page = []) then Some (w', all_products)
    else if decide (Z.of_nat (length page) < batch_size) then Some (w', all_products ++ page)
    else get_all_products_loop isoformat fuel batch_size fields progress_callback
           (all_products ++ page) (offset + batch_size)
           (total_fetched + Z.of_nat (length page)) w'.
Proof.
  intros Hcallback Hget Hproducts. cbn [get_all_products_loop].
  rewrite Hget, Hproducts. cbn [py_bool py_iter py_len].
  destruct page as [|p page].
  - rewrite bool_decide_eq_false_2 by auto. reflexivity.
  - rewrite bool_decide_eq_true_2 by discriminate.
    destruct (decide (p :: page = [])); [discriminate|].
    assert ((match progress_callback with
             | Some callback =>
                 callback (total_fetched + Z.of_nat (length (p :: page)))
                   (Z.of_nat (length (p :: page)))
             | None => true
             end) = true) as ->.
    { destruct progress_callback as [callback|]; [|reflexivity].
      apply (Hcallback callback eq_refl). }
    reflexivity.
Qed.

(** X21. [get_all_products] returns the pages it was served, in order and
    joined, whatever ended the run.  The loop asks for the page at offset 0,
    [batch_size], [2 * batch_size], ... and goes on as long as a page is not
    empty and not shorter than [batch_size]; it ends with the first empty or
    shorter page, or with the first call of [get_products] that fails, and a
    failure is not reported: the products fetched before it are returned
    like a complete list (the empty list, when the first call fails).
    [progress_callback], if given, is one that returns. *)
Theorem get_all_products_concatenates
    (isoformat : Z -> string) (batch_size : Z) (fields : option (list string))
    (progress_callback : option (Z -> Z -> bool))
    (pages : list (list pyval)) (w w' : World) (fuel : nat) :
  (forall callback, progress_callback = Some callback -> forall n m, callback n m = true) ->
  pages_served isoformat batch_size fields 0 w pages w' ->
  (length pages < fuel)%nat ->
  get_all_products isoformat fuel batch_size fields progress_callback w
  = Some (w', concat pages).
Proof.
  intros Hcallback Hserved. unfold get_all_products.
  change (concat pages) with ([] ++ concat pages).
  generalize (@nil pyval) as all_products. generalize 0 at 2 as total_fetched.
  revert fuel. induction Hserved as
    [offset w w' e Hget
    |offset w w' result page Hget Hproducts Hshort
    |offset w w' w'' result page pages Hget Hproducts Hne Hfull Hserved IH];
    intros fuel total_fetched all_products Hfuel;
    (destruct fuel as [|fuel]; [cbn in Hfuel; lia|]).
  - cbn [get_all_products_loop]. rewrite Hget. cbn. rewrite app_nil_r. reflexivity.
  - rewrite (get_all_products_loop_S _ _ _ _ _ _ _ _ _ _ _ _ Hcallback Hget Hproducts).
    cbn [concat]. rewrite app_nil_r.
    destruct (decide (page = [])) as [->|Hne]; [rewrite app_nil_r; reflexivity|].
    destruct Hshort as [?|Hshort]; [contradiction|].
    destruct (decide (Z.of_nat (length page) < batch_size)); [reflexivity | contradiction].
  - rewrite (get_all_products_loop_S _ _ _ _ _ _ _ _ _ _ _ _ Hcallback Hget Hproducts).
    destruct (decide (page = [])); [contradiction|].
    destruct (decide (Z.of_nat (length page) < batch_size)); [lia|].
    rewrite IH by (cbn in Hfuel; lia).
    cbn [concat]. rewrite app_assoc. reflexivity.
Qed.

(** X22. The two health checks judge the same answer differently.  When
    the authentication manager has produced the headers and the API answers
    the attempt: on 204, and on 200 or 201 with a body that
    [response.json()] rejects with [JSONDecodeError] (text that is not
    JSON: an HTML page, say), [ping] is true, since the envelope that
    [request] builds has the key [message]; on a status that [request] does not
    classify (202, a 3xx) [request] returns [None], the test [in] raises
    [TypeError] and [ping] is false, while [get_api_info] reports
    [connected: True] for the same answer, with the count of the
    self-throttle. *)
Theorem health_checks_by_status
    (isoformat : Z -> string) (cafe24_mall_id : string) (w w1 : World)
    (auth_headers : gmap string string) (response : Response) :
  get_async_auth_headers (_handle_rate_limit w) = (w1, Ret auth_headers) ->
  admin_api (http_calls w1) "GET"
    (String.app (cafe24_base_url settings) "/admin/products") = HttpResponse response ->
  (status_code response = 204
   \/ (status_code response ∈ [200; 201] /\ json response = JsonDecodeError) ->
   snd <$> ping isoformat w = Some true)
  /\ (status_code response ∉ [200; 201; 204; 401; 429] ->
      ~ (400 <= status_code response < 600) ->
      snd <$> ping isoformat w = Some false
      /\ snd <$> get_api_info cafe24_mall_id w
         = Some (Connected cafe24_mall_id (api_version settings) (cafe24_base_url settings)
                   100 (_requests_this_minute w1))).
Proof.
  intros Hauth Hresp.
  assert (forall params,
            request (mk_request_args "GET" "products" params None None None) None w
            = except_clauses
                (request_fuel (S (Z.to_nat (max_retries settings)))
                   (mk_request_args "GET" "products" params None None None)
                   (max_retries settings - 1))
                (max_retries settings)
                (try_body
                   (request_fuel (S (Z.to_nat (max_retries settings)))
                      (mk_request_args "GET" "products" params None None None)
                      (max_retries settings - 1))
                   (max_retries settings) (HttpResponse response)
                   (emit (EvRequest "GET"
                            (String.app (cafe24_base_url settings) "/admin/products"))
                         (set_http_calls (S (http_calls w1)) w1)))) as Hreq.
  { intros params. unfold request, request_depth. cbn [default].
    rewrite request_fuel_S, Hauth. cbv zeta.
    change (request_url (mk_request_args "GET" "products" params None None None))
      with (String.app (cafe24_base_url settings) "/admin/products").
    cbn [method]. rewrite Hresp. reflexivity. }
  split.
  - intros Hok. unfold ping, client_get. rewrite Hreq. unfold try_body.
    destruct Hok as [H204|[Hin Hjson]].
    + rewrite H204. reflexivity.
    + unfold json_or_envelope. rewrite Hjson. rewrite !elem_of_cons, elem_of_nil in Hin.
      destruct Hin as [->|[->|[]]]; reflexivity.
  - intros Hnot Hrange.
    assert (try_body
              (request_fuel (S (Z.to_nat (max_retries settings)))
                 (mk_request_args "GET" "products" (Some (PDict [("limit", PInt 1)]))
                    None None None)
                 (max_retries settings - 1))
              (max_retries settings) (HttpResponse response)
              (emit (EvRequest "GET"
                       (String.app (cafe24_base_url settings) "/admin/products"))
                    (set_http_calls (S (http_calls w1)) w1))
            = Some (emit (EvRequest "GET"
                            (String.app (cafe24_base_url settings) "/admin/products"))
                         (set_http_calls (S (http_calls w1)) w1), Ret PNone)) as Hbody.
    { unfold try_body.
      repeat match goal with
             | |- context [decide (status_code response = ?n)] =>
                 destruct (decide (status_code response = n)) as [Heq|_];
                 [exfalso; apply Hnot; rewrite Heq;
                  rewrite !elem_of_cons; tauto|]
             | |- context [decide (?lo <= status_code response < ?hi)] =>
                 destruct (decide (lo <= status_code response < hi)) as [?|_];
                 [exfalso; lia|]
             end.
      reflexivity. }
    split.
    + unfold ping, client_get. rewrite Hreq, Hbody. reflexivity.
    + unfold get_api_info, client_get. rewrite Hreq, Hbody. reflexivity.
Qed.

End Properties.

(** ** The properties on explicit runs *)

(** The 96 requests of the first part, issued every half second; and a
    request that finds 95 requests counted in a window opened ten seconds
    ago, by a client that is not fresh. *)
Lemma self_throttle_window_witness :
  trace (handle_rate_limit_times (env := demo_env_clock 500000) 96 fresh_world)
  = [EvSleep (seconds 60 - 95 * 500000)]
  /\ _requests_this_minute
       (handle_rate_limit_times (env := demo_env_clock 500000) 96 fresh_world) = 1
  /\ trace (_handle_rate_limit (env := demo_env_clock 500000)
              (set_rate_limit (Some demo_epoch) 95 (set_ticks 20 fresh_world)))
     = [EvSleep (seconds 50)]
  /\ _requests_this_minute
       (_handle_rate_limit (env := demo_env_clock 500000)
          (set_rate_limit (Some demo_epoch) 95 (set_ticks 20 fresh_world))) = 1.
Proof.
  destruct (self_throttle_window (env := demo_env_clock 500000))
    as (H & _ & _ & _ & _ & H6 & _).
  specialize (H fresh_world eq_refl eq_refl).
  destruct H as (_ & _ & Htr & _ & _ & Hc).
  - intros i Hi. cbn. unfold seconds, second. lia.
  - destruct (H6 (set_rate_limit (Some demo_epoch) 95 (set_ticks 20 fresh_world))
                demo_epoch eq_refl ltac:(vm_compute; discriminate)
                ltac:(vm_compute; reflexivity)) as (Htr6 & _ & _ & Hc6).
    split; [exact Htr|]. split; [exact Hc|]. split; [|exact Hc6].
    rewrite Htr6. reflexivity.
Defined.

(** C5, as stated, fails: the window is not reset every 60 seconds.
    Requests at 0, 45 and 90 seconds: the window that the first request
    opened is still the window at 45 seconds, with two requests counted, and
    it is replaced only by the request at 90 seconds, which opens the next
    window at 90 seconds, not at 60: the first window lasted 90 seconds. *)
Lemma self_throttle_window_counterexample :
  clock (Env := demo_env_clock (seconds 45)) 0 = demo_epoch
  /\ clock (Env := demo_env_clock (seconds 45)) 1 = demo_epoch + seconds 45
  /\ clock (Env := demo_env_clock (seconds 45)) 2 = demo_epoch + seconds 90
  /\ _rate_limit_reset
       (handle_rate_limit_times (env := demo_env_clock (seconds 45)) 2 fresh_world)
     = Some demo_epoch
  /\ _requests_this_minute
       (handle_rate_limit_times (env := demo_env_clock (seconds 45)) 2 fresh_world) = 2
  /\ _rate_limit_reset
       (handle_rate_limit_times (env := demo_env_clock (seconds 45)) 3 fresh_world)
     = Some (demo_epoch + seconds 90)
  /\ _requests_this_minute
       (handle_rate_limit_times (env := demo_env_clock (seconds 45)) 3 fresh_world) = 1
  /\ trace (handle_rate_limit_times (env := demo_env_clock (seconds 45)) 3 fresh_world)
     = []
  /\ demo_epoch + seconds 90 <> demo_epoch + seconds 60.
Proof. repeat split; try reflexivity. vm_compute. discriminate. Qed.

(** The stand-in cipher reads back what it wrote. *)
Lemma demo_round_trip (key : string) (iv : nat) (data : string) :
  demo_decrypt key (demo_encrypt key iv data) = Some data.
Proof.
  unfold demo_decrypt, demo_encrypt.
  assert (forall s, strip_prefix key (String.app key s) = Some s) as ->; [|reflexivity].
  induction key as [|a key IH]; intros s; [reflexivity|].
  change (String.app (String a key) s) with (String a (String.app key s)).
  cbn. destruct (decide (a = a)); [apply IH | contradiction].
Qed.

(** A token saved with Redis present is read back. *)
Lemma save_then_get_round_trip_witness :
  (get_token (env := demo_env (fun _ => token_ok) (always 200)) "access"
     (save_token (env := demo_env (fun _ => token_ok) (always 200))
        "access" "tok1" 7200 None fresh_world_redis).1).2
  = Some "tok1".
Proof.
  pose proof (save_then_get_round_trip (env := demo_env (fun _ => token_ok) (always 200))
                demo_round_trip "access" "tok1" 7200 None fresh_world_redis _ eq_refl)
    as (_ & _ & Hget).
  apply Hget.
  - reflexivity.
  - vm_compute. discriminate.
Defined.

(** The store of the runs below: access token [tok1] for 7200 seconds and
    refresh token [ref1], saved at [demo_epoch], without Redis. *)
Lemma logged_in_store :
  (expires_at_of <$> lookup_record "access" (logged_in fresh_world))
  = Some (Some (demo_epoch + seconds 7200))
  /\ (expires_at_of <$> lookup_record "refresh" (logged_in fresh_world))
     = Some (Some (demo_epoch + seconds 2592000)).
Proof. split; reflexivity. Qed.

(** Looked up three hours after the exchange, the access token is deleted
    and [None] is returned; looked up at once, it is returned. *)
Lemma get_token_lazy_expiry_witness :
  ((get_token (env := demo_env_at (demo_epoch + seconds 10800) (fun _ => token_ok) (always 200))
      "access" (logged_in fresh_world)).2 = None
   /\ token_file
        (get_token (env := demo_env_at (demo_epoch + seconds 10800) (fun _ => token_ok) (always 200))
           "access" (logged_in fresh_world)).1 !! "access" = None)
  /\ (get_token (env := demo_env (fun _ => token_ok) (always 200))
        "access" (logged_in fresh_world)).2 = Some "tok1".
Proof.
  split.
  - destruct (get_token_lazy_expiry
                (env := demo_env_at (demo_epoch + seconds 10800) (fun _ => token_ok) (always 200))
                "access" (logged_in fresh_world)
                (default ∅ (lookup_record "access" (logged_in fresh_world)))
                (demo_epoch + seconds 7200) eq_refl eq_refl) as [Hdead _].
    destruct Hdead as (Hnone & Hfile & _); [reflexivity|].
    split; assumption.
  - destruct (get_token_lazy_expiry
                (env := demo_env (fun _ => token_ok) (always 200))
                "access" (logged_in fresh_world)
                (default ∅ (lookup_record "access" (logged_in fresh_world)))
                (demo_epoch + seconds 7200) eq_refl eq_refl) as [_ Hlive].
    destruct (Hlive ltac:(vm_compute; discriminate) (demo_encrypt "k3y" 0 "tok1") eq_refl)
      as (Hget & _).
    rewrite Hget. reflexivity.
Defined.



(** An HTTP error status from the token endpoint clears the store. *)
Lemma refresh_access_token_failures_witness :
  (refresh_access_token (env := demo_env (fun _ => PostStatusError 400 "invalid_grant") (always 200))
     (logged_in fresh_world)).2
  = Raise (new_exn TokenExpiredError (FStr "Token refresh failed. Please re-authenticate."))
  /\ token_file
       (refresh_access_token
          (env := demo_env (fun _ => PostStatusError 400 "invalid_grant") (always 200))
          (logged_in fresh_world)).1 = ∅.
Proof.
  destruct (refresh_access_token_failures
              (env := demo_env (fun _ => PostStatusError 400 "invalid_grant") (always 200))
              (logged_in fresh_world)) as [_ Hstored].
  assert (get_token (env := demo_env (fun _ => PostStatusError 400 "invalid_grant") (always 200))
            "refresh" (logged_in fresh_world)
          = ((get_token (env := demo_env (fun _ => PostStatusError 400 "invalid_grant") (always 200))
                "refresh" (logged_in fresh_world)).1, Some "ref1")) as Hget
    by (vm_compute; reflexivity).
  specialize (Hstored _ "ref1" Hget ltac:(discriminate)).
  destruct Hstored as [Hstatus _].
  specialize (Hstatus 400 "invalid_grant" ltac:(vm_compute; reflexivity)).
  destruct Hstatus as (Heq & Hfile & _).
  rewrite Heq. split; [reflexivity | exact Hfile].
Defined.

(** C9, as stated, fails: when the transport raises, the call fails with an
    [AuthenticationError] that is no [TokenExpiredError], and both tokens are
    still in the store. *)
Lemma refresh_access_token_failures_counterexample :
  (refresh_access_token (env := demo_env (fun _ => PostRaises connect_error) (always 200))
     (logged_in fresh_world)).2
  = Raise (refresh_failed connect_error)
  /\ exn_cls (refresh_failed connect_error) = AuthenticationError
  /\ isinstance (refresh_failed connect_error) TokenExpiredError = false
  /\ token_file
       (refresh_access_token (env := demo_env (fun _ => PostRaises connect_error) (always 200))
          (logged_in fresh_world)).1
     = token_file (logged_in fresh_world)
  /\ size (token_file (logged_in fresh_world)) = 2%nat.
Proof. repeat split; reflexivity. Qed.

(** A 202 falls through the chain. *)
Lemma request_unclassified_status_witness :
  observe (request (env := demo_env (fun _ => token_ok) (always 202))
             products_args None (logged_in fresh_world))
  = Some (1%nat, 0%nat, [], Ret PNone).
Proof.
  assert (get_async_auth_headers (env := demo_env (fun _ => token_ok) (always 202))
            (_handle_rate_limit (env := demo_env (fun _ => token_ok) (always 202))
               (logged_in fresh_world))
          = ((get_async_auth_headers (env := demo_env (fun _ => token_ok) (always 202))
                (_handle_rate_limit (env := demo_env (fun _ => token_ok) (always 202))
                   (logged_in fresh_world))).1,
             Ret {[ "Authorization" := "Bearer tok1";
                    "Content-Type" := "application/json";
                    "X-Cafe24-Api-Version" := "2024-06-01" ]})) as Hauth
    by (vm_compute; reflexivity).
 
  pose proof (request_unclassified_status (env := demo_env (fun _ => token_ok) (always 202))
             products_args None (logged_in fresh_world) _ _
             (mk_response 202 ∅ "body" JsonDecodeError) Hauth) as H.
 
  rewrite H.
  - vm_compute. reflexivity.
  - reflexivity.
  - cbn [status_code]. rewrite !elem_of_cons, elem_of_nil.
    intros [?|[?|[?|[?|[?|[]]]]]]; discriminate.
  - cbn [status_code]. lia.
Defined.

(** ** The typed errors of the request pipeline (C1 to C4)

    The branches of the [try] statement raise [APIError], [RateLimitError]
    and [AuthenticationError], but they do so inside the [try] statement
    whose last clause is [except Exception]: the clause retries them or
    replaces them by a [NetworkError].  The four runs below use the store
    of [logged_in] and the default budget of 3. *)

(** C1. Every attempt answers 404.  The specification asks for one attempt
    and an [APIError] carrying 404 and the body; the code makes four
    attempts, one second apart, and raises a [NetworkError] without status
    code, and with a budget of 0 one attempt and the same [NetworkError]. *)
Theorem client_error_is_retried :
  observe (request (env := demo_env (fun _ => token_ok) (always 404))
             products_args None (logged_in fresh_world))
  = Some (4%nat, 0%nat, [seconds 1; seconds 1; seconds 1],
          Raise (new_exn NetworkError (FVal (PStr "body"))))
  /\ observe (request (env := demo_env (fun _ => token_ok) (always 404))
                products_args (Some 0) (logged_in fresh_world))
     = Some (1%nat, 0%nat, [], Raise (new_exn NetworkError (FVal (PStr "body")))).
Proof. split; vm_compute; reflexivity. Qed.

(** C2. Every attempt answers 401.  The token is refreshed once and the
    call retried once, as the specification asks, but the second 401 does
    not fail with an [AuthenticationError]: the caller gets a
    [NetworkError]. *)
Theorem second_401_raises_NetworkError :
  observe (request (env := demo_env (fun _ => token_ok) (always 401))
             products_args None (logged_in fresh_world))
  = Some (2%nat, 1%nat, [],
          Raise (new_exn NetworkError
                   (FCat (FStr "Authentication failed: ") (FStr "Invalid or expired token")))).
Proof. vm_compute; reflexivity. Qed.

(** C3. Every attempt answers 500.  With the budget of 3 the specification
    asks for 4 attempts, waits of 2, 4 and 6 seconds and an [APIError]; the
    code makes 15 attempts, because each level retries once after its
    backoff and once more from [except Exception], and raises a
    [NetworkError].  With a budget of 0 it makes one attempt and raises the
    same [NetworkError]. *)
Theorem server_error_retries_exponentially :
  observe (request (env := demo_env (fun _ => token_ok) (always 500))
             products_args None (logged_in fresh_world))
  = Some (15%nat, 0%nat,
          [seconds 2; seconds 4; seconds 6; seconds 1; seconds 1; seconds 6; seconds 1;
           seconds 1; seconds 4; seconds 6; seconds 1; seconds 1; seconds 6; seconds 1],
          Raise (new_exn NetworkError (FCat (FStr "Server error: ") (FInt 500))))
  /\ observe (request (env := demo_env (fun _ => token_ok) (always 500))
                products_args (Some 0) (logged_in fresh_world))
     = Some (1%nat, 0%nat, [],
             Raise (new_exn NetworkError (FCat (FStr "Server error: ") (FInt 500)))).
Proof. split; vm_compute; reflexivity. Qed.

(** C4. A 429 with [Retry-After: 5] and budget left makes the pipeline wait
    5 seconds and retry, as the specification asks; a 429 without the header
    waits 60 seconds.  A 429 with the budget at 0 does not fail with a
    [RateLimitError]: the caller gets a [NetworkError]. *)
Theorem rate_limit_exhausted_raises_NetworkError :
  observe (request (env := demo_env (fun _ => token_ok) throttled_once)
             products_args None (logged_in fresh_world))
  = Some (2%nat, 0%nat, [seconds 5], Ret (PDict [("products", PList [])]))
  /\ observe (request (env := demo_env (fun _ => token_ok) (always 429))
                products_args (Some 0) (logged_in fresh_world))
     = Some (1%nat, 0%nat, [], Raise (new_exn NetworkError (FStr "Rate limit exceeded")))
  /\ observe (request (env := demo_env (fun _ => token_ok) (always 429))
                products_args (Some 1) (logged_in fresh_world))
     = Some (3%nat, 0%nat, [seconds 60; seconds 1],
             Raise (new_exn NetworkError (FStr "Rate limit exceeded"))).
Proof. repeat split; vm_compute; reflexivity. Qed.

(** ** More explicit runs *)

(** Deleting the access token of [logged_in] leaves the refresh token. *)
Lemma delete_token_effect_witness :
  lookup_record "access" (delete_token "access" (logged_in fresh_world)) = None
  /\ lookup_record "refresh" (delete_token "access" (logged_in fresh_world))
     = lookup_record "refresh" (logged_in fresh_world).
Proof.
  destruct (delete_token_effect "access" "refresh" (logged_in fresh_world)
              ltac:(discriminate)) as (Hgone & _ & Hkept & _).
  split; assumption.
Defined.

(** Saving a new access token leaves the refresh token. *)
Lemma save_token_other_type_witness :
  lookup_record "refresh"
    (save_token (env := demo_env (fun _ => token_ok) (always 200))
       "access" "tok3" 60 None (logged_in fresh_world)).1
  = lookup_record "refresh" (logged_in fresh_world).
Proof.
  destruct (save_token_other_type (env := demo_env (fun _ => token_ok) (always 200))
              "access" "refresh" "tok3" 60 None (logged_in fresh_world)
              ltac:(discriminate)) as [Hkept _].
  exact Hkept.
Defined.

(** [int(td.total_seconds())] goes through a float: five microseconds
    short of 200000000000 seconds it gives 200000000000, where the exact
    quotient is 199999999999; at 300.5 seconds it gives 300. *)
Lemma whole_seconds_is_the_float :
  whole_seconds (seconds 200000000000 - 5) = 200000000000
  /\ Z.quot (seconds 200000000000 - 5) second = 199999999999
  /\ whole_seconds 300500000 = 300
  /\ whole_seconds (- 1500000) = -1.
Proof. repeat split; vm_compute; reflexivity. Qed.

(** The information on the access token of [logged_in]. *)
Lemma get_token_info_hides_secret_witness :
  (default ∅ (get_token_info (env := demo_env (fun _ => token_ok) (always 200))
                "access" (logged_in fresh_world)).2) !! "token" = None.
Proof.
  assert (get_token_info (env := demo_env (fun _ => token_ok) (always 200))
            "access" (logged_in fresh_world)
          = ((get_token_info (env := demo_env (fun _ => token_ok) (always 200))
                "access" (logged_in fresh_world)).1,
             Some (default ∅ (get_token_info (env := demo_env (fun _ => token_ok) (always 200))
                                "access" (logged_in fresh_world)).2))) as Hinfo
    by (vm_compute; reflexivity).
  destruct (get_token_info_hides_secret (env := demo_env (fun _ => token_ok) (always 200))
              "access" (logged_in fresh_world) _ _ Hinfo) as [Hsecret _].
  exact Hsecret.
Defined.

(** The access token of [logged_in] is read back. *)
Lemma get_token_sound_witness :
  exists (data : pydict) (ciphertext : string),
    lookup_record "access" (logged_in fresh_world) = Some data
    /\ data !! "token" = Some (PStr ciphertext)
    /\ decrypt (env := demo_env (fun _ => token_ok) (always 200)) ciphertext = Some "tok1".
Proof.
  assert (get_token (env := demo_env (fun _ => token_ok) (always 200))
            "access" (logged_in fresh_world)
          = ((get_token (env := demo_env (fun _ => token_ok) (always 200))
                "access" (logged_in fresh_world)).1, Some "tok1")) as Hget
    by (vm_compute; reflexivity).
  destruct (get_token_sound (env := demo_env (fun _ => token_ok) (always 200))
              "access" (logged_in fresh_world) _ _ Hget) as [Hsome _].
  destruct (Hsome "tok1" eq_refl) as (data & expires_at & ciphertext & H1 & _ & _ & H4 & H5 & _).
  exists data, ciphertext. repeat split; assumption.
Defined.

(** A Redis cache that has lost the access token: with two hours of
    lifetime left in the file, the token is refreshed all the same. *)
Lemma redis_miss_forces_refresh_witness :
  (get_valid_token (env := demo_env (fun _ => token_ok) (always 200))
     (set_redis (Some ∅) (logged_in fresh_world))).2 = Ret "tok2"
  /\ token_posts
       (get_valid_token (env := demo_env (fun _ => token_ok) (always 200))
          (set_redis (Some ∅) (logged_in fresh_world))).1 = 1%nat.
Proof.
  destruct (redis_miss_forces_refresh (env := demo_env (fun _ => token_ok) (always 200))
              (set_redis (Some ∅) (logged_in fresh_world)) ∅
              (default ∅ (token_file (logged_in fresh_world) !! "access"))
              (demo_epoch + seconds 7200) (demo_encrypt "k3y" 0 "tok1") "tok1"
              eq_refl ltac:(apply lookup_empty)
              ltac:(vm_compute; reflexivity) ltac:(vm_compute; reflexivity)
              ltac:(vm_compute; discriminate) ltac:(vm_compute; reflexivity)
              eq_refl ltac:(discriminate)) as (_ & _ & Hvalid).
  rewrite Hvalid. split; vm_compute; reflexivity.
Defined.

(** The access token of [logged_in], extended by a minute, is still
    [tok1]. *)
Lemma refresh_token_keeps_secret_witness :
  (get_token (env := demo_env (fun _ => token_ok) (always 200)) "access"
     (refresh_token (env := demo_env (fun _ => token_ok) (always 200))
        "access" 60 (logged_in fresh_world)).1).2
  = Some "tok1".
Proof.
  destruct (refresh_token_keeps_secret (env := demo_env (fun _ => token_ok) (always 200))
              demo_round_trip "access" 60 (logged_in fresh_world)) as [_ Hkept].
  assert (get_token (env := demo_env (fun _ => token_ok) (always 200))
            "access" (logged_in fresh_world)
          = ((get_token (env := demo_env (fun _ => token_ok) (always 200))
                "access" (logged_in fresh_world)).1, Some "tok1")) as Hget
    by (vm_compute; reflexivity).
  assert (refresh_token (env := demo_env (fun _ => token_ok) (always 200))
            "access" 60 (logged_in fresh_world)
          = ((refresh_token (env := demo_env (fun _ => token_ok) (always 200))
                "access" 60 (logged_in fresh_world)).1, true)) as Hrefresh
    by (vm_compute; reflexivity).
  destruct (Hkept _ _ "tok1" Hget ltac:(discriminate) Hrefresh)
    as (data & _ & _ & _ & Hread).
  apply Hread. vm_compute. discriminate.
Defined.

(** A code that the token endpoint refuses with status 400. *)
Lemma exchange_code_failures_witness :
  (exchange_code_for_token
     (env := demo_env (fun _ => PostStatusError 400 "invalid_grant") (always 200))
     "code" (logged_in fresh_world)).2
  = Raise (new_exn AuthenticationError (FCat (FStr "Token exchange failed: ") (FInt 400)))
  /\ same_stores (logged_in fresh_world)
       (exchange_code_for_token
          (env := demo_env (fun _ => PostStatusError 400 "invalid_grant") (always 200))
          "code" (logged_in fresh_world)).1.
Proof.
  assert (exchange_code_for_token
            (env := demo_env (fun _ => PostStatusError 400 "invalid_grant") (always 200))
            "code" (logged_in fresh_world)
          = ((exchange_code_for_token
                (env := demo_env (fun _ => PostStatusError 400 "invalid_grant") (always 200))
                "code" (logged_in fresh_world)).1,
             Raise (new_exn AuthenticationError
                      (FCat (FStr "Token exchange failed: ") (FInt 400))))) as Hrun
    by (vm_compute; reflexivity).
  destruct (exchange_code_failures
              (env := demo_env (fun _ => PostStatusError 400 "invalid_grant") (always 200))
              "code" (logged_in fresh_world) _ _ Hrun) as (_ & _ & Hstores & _).
  split; [rewrite Hrun; reflexivity | exact Hstores].
Defined.

(** A code exchange on an empty store, then the token from the store. *)
Lemma exchange_then_valid_token_witness :
  (get_valid_token (env := demo_env (fun _ => token_ok) (always 200))
     (exchange_code_for_token (env := demo_env (fun _ => token_ok) (always 200))
        "code" fresh_world).1).2
  = Ret "tok2".
Proof.
  destruct (exchange_then_valid_token (env := demo_env (fun _ => token_ok) (always 200))
              demo_round_trip "code" fresh_world
              (mk_token_data (Some "tok2") (Some 7200) (Some "Bearer") None None) "tok2"
              eq_refl eq_refl ltac:(discriminate)
              ltac:(eexists; vm_compute; reflexivity)
              ltac:(left; reflexivity)
              ltac:(intros n; vm_compute; discriminate)) as (_ & _ & Hvalid).
  rewrite Hvalid. reflexivity.
Defined.

(** A refresh that is answered without a refresh token keeps [ref1]. *)
Lemma refresh_without_rotation_witness :
  (refresh_access_token (env := demo_env (fun _ => token_ok) (always 200))
     (logged_in fresh_world)).2 = Ret "tok2"
  /\ lookup_record "refresh"
       (refresh_access_token (env := demo_env (fun _ => token_ok) (always 200))
          (logged_in fresh_world)).1
     = lookup_record "refresh" (logged_in fresh_world).
Proof.
  assert (get_token (env := demo_env (fun _ => token_ok) (always 200))
            "refresh" (logged_in fresh_world)
          = ((get_token (env := demo_env (fun _ => token_ok) (always 200))
                "refresh" (logged_in fresh_world)).1, Some "ref1")) as Hget
    by (vm_compute; reflexivity).
  destruct (refresh_without_rotation (env := demo_env (fun _ => token_ok) (always 200))
              (logged_in fresh_world) _ "ref1"
              (mk_token_data (Some "tok2") (Some 7200) (Some "Bearer") None None) "tok2"
              Hget ltac:(discriminate) eq_refl eq_refl eq_refl) as (Hret & Hkept & _).
  split; assumption.
Defined.

(** A 200 with a body that is not JSON. *)
Lemma request_success_status_witness :
  observe (request (env := demo_env (fun _ => token_ok) (always 200))
             products_args None (logged_in fresh_world))
  = Some (1%nat, 0%nat, [], Ret (envelope "Success" "body")).
Proof.
  assert (get_async_auth_headers (env := demo_env (fun _ => token_ok) (always 200))
            (_handle_rate_limit (env := demo_env (fun _ => token_ok) (always 200))
               (logged_in fresh_world))
          = ((get_async_auth_headers (env := demo_env (fun _ => token_ok) (always 200))
                (_handle_rate_limit (env := demo_env (fun _ => token_ok) (always 200))
                   (logged_in fresh_world))).1,
             Ret {[ "Authorization" := "Bearer tok1";
                    "Content-Type" := "application/json";
                    "X-Cafe24-Api-Version" := "2024-06-01" ]})) as Hauth
    by (vm_compute; reflexivity).
  destruct (request_success_status (env := demo_env (fun _ => token_ok) (always 200))
              products_args None (logged_in fresh_world) _ _
              (mk_response 200 ∅ "body" JsonDecodeError) Hauth eq_refl) as [Hok _].
  - cbn [status_code]. rewrite !elem_of_cons. auto.
  - rewrite Hok; [vm_compute; reflexivity | right; intros e; discriminate].
Defined.

(** A 200 whose body is not UTF-8 is not a success: with the default budget
    of 3 it is tried four times, one second apart, and the call ends with a
    [NetworkError]. *)
Lemma undecodable_body_is_retried :
  observe (request (env := demo_env (fun _ => token_ok) undecodable)
             products_args None (logged_in fresh_world))
  = Some (4%nat, 0%nat, [seconds 1; seconds 1; seconds 1],
          Raise (new_exn NetworkError (exn_str not_utf8))).
Proof. vm_compute. reflexivity. Qed.

(** A request from a store without tokens. *)
Lemma request_auth_failure_propagates_witness :
  observe (request (env := demo_env (fun _ => token_ok) (always 200))
             products_args None fresh_world)
  = Some (0%nat, 0%nat, [],
          Raise (new_exn AuthenticationError
                   (FStr "No valid access token. Please authenticate using the authorization URL."))).
Proof.
  assert (get_async_auth_headers (env := demo_env (fun _ => token_ok) (always 200))
            (_handle_rate_limit (env := demo_env (fun _ => token_ok) (always 200))
               fresh_world)
          = ((get_async_auth_headers (env := demo_env (fun _ => token_ok) (always 200))
                (_handle_rate_limit (env := demo_env (fun _ => token_ok) (always 200))
                   fresh_world)).1,
             Raise (new_exn AuthenticationError
                      (FStr "No valid access token. Please authenticate using the authorization URL."))))
    as Hauth by (vm_compute; reflexivity).
  destruct (request_auth_failure_propagates (env := demo_env (fun _ => token_ok) (always 200))
              products_args None fresh_world _ _ Hauth) as [Hrun _].
  rewrite Hrun. vm_compute. reflexivity.
Defined.


(** The transport fails at each of the four attempts of the default
    budget. *)
Lemma transport_failure_attempts_witness :
  exists w' : World,
    request (env := demo_env (fun _ => token_ok) (fun _ => HttpRaises connect_error))
      products_args None (logged_in fresh_world)
    = Some (w', Raise (new_exn NetworkError (FStr "All connection attempts failed")))
    /\ http_calls w' = 4%nat.
Proof.
  destruct (transport_failure_attempts
              (env := demo_env (fun _ => token_ok) (fun _ => HttpRaises connect_error))
              (default ∅ (lookup_record "access" (logged_in fresh_world)))
              (demo_epoch + seconds 7200) (demo_encrypt "k3y" 0 "tok1") "tok1"
              ltac:(vm_compute; reflexivity) ltac:(vm_compute; reflexivity)
              eq_refl ltac:(discriminate)
              ltac:(intros n; vm_compute; discriminate)
              products_args connect_error 3
              ltac:(reflexivity) eq_refl eq_refl
              5%nat (logged_in fresh_world)
              ltac:(split; vm_compute; reflexivity) ltac:(lia))
    as (w' & Hrun & _ & _ & Hcalls).
  exists w'. split; [exact Hrun | exact Hcalls].
Defined.

(** The exception after four answers 404. *)
Lemma request_exception_classes_witness :
  exists (w' : World) (e : exn),
    request (env := demo_env (fun _ => token_ok) (always 404))
      products_args None (logged_in fresh_world) = Some (w', Raise e)
    /\ exn_cls e = NetworkError
    /\ isinstance e APIError = false.
Proof.
  assert (request (env := demo_env (fun _ => token_ok) (always 404))
            products_args None (logged_in fresh_world)
          = Some ((default (fresh_world, Ret PNone)
                     (request (env := demo_env (fun _ => token_ok) (always 404))
                        products_args None (logged_in fresh_world))).1,
                  Raise (new_exn NetworkError (FVal (PStr "body"))))) as Hrun
    by (vm_compute; reflexivity).
  destruct (request_exception_classes (env := demo_env (fun _ => token_ok) (always 404))
              products_args None (logged_in fresh_world) _ _ Hrun) as (_ & Hapi & _).
  eexists _, _. split; [exact Hrun|]. split; [reflexivity | exact Hapi].
Defined.

(** With the default budget of 3 the recursion is at most 5 deep. *)
Lemma request_terminates_witness :
  request_fuel (env := demo_env (fun _ => token_ok) (always 500)) 7
    products_args 3 (logged_in fresh_world)
  = request (env := demo_env (fun _ => token_ok) (always 500))
      products_args None (logged_in fresh_world).
Proof.
  destruct (request_terminates (env := demo_env (fun _ => token_ok) (always 500))
              products_args None (logged_in fresh_world) 7
              ltac:(vm_compute; lia)) as [_ Hsame].
  exact Hsame.
Defined.

(** Three products, served two to a page. *)
Lemma get_all_products_concatenates_witness :
  snd <$> get_all_products (env := demo_env (fun _ => token_ok) three_products)
            demo_isoformat 3 2 None None (logged_in fresh_world)
  = Some [product 1; product 2; product 3].
Proof.
  set (w1 := (default (fresh_world, Ret PNone)
                (get_products (env := demo_env (fun _ => token_ok) three_products)
                   demo_isoformat 2 0 None [] (logged_in fresh_world))).1).
  set (w2 := (default (fresh_world, Ret PNone)
                (get_products (env := demo_env (fun _ => token_ok) three_products)
                   demo_isoformat 2 2 None [] w1)).1).
  rewrite (get_all_products_concatenates
             (env := demo_env (fun _ => token_ok) three_products)
             demo_isoformat 2 None None [[product 1; product 2]; [product 3]]
             (logged_in fresh_world) w2 3).
  - reflexivity.
  - discriminate.
  - apply (full_page _ _ _ _ _ w1 _
             (PDict [("products", PList [product 1; product 2]);
                     ("total_count", PInt 2); ("limit", PInt 2); ("offset", PInt 0);
                     ("has_more", PBool true)])).
    + vm_compute. reflexivity.
    + reflexivity.
    + discriminate.
    + vm_compute. discriminate.
    + apply (last_page _ _ _ _ _ _
               (PDict [("products", PList [product 3]);
                       ("total_count", PInt 1); ("limit", PInt 2); ("offset", PInt 2);
                       ("has_more", PBool false)])).
      * vm_compute. reflexivity.
      * reflexivity.
      * right. vm_compute. reflexivity.
  - cbn. lia.
Defined.

(** A 204 and a 202 seen by the two health checks. *)
Lemma health_checks_by_status_witness :
  snd <$> ping (env := demo_env (fun _ => token_ok) (always 204)) demo_isoformat
            (logged_in fresh_world) = Some true
  /\ snd <$> ping (env := demo_env (fun _ => token_ok) (always 202)) demo_isoformat
               (logged_in fresh_world) = Some false
  /\ snd <$> get_api_info (env := demo_env (fun _ => token_ok) (always 202)) "manwonyori"
               (logged_in fresh_world)
     = Some (Connected "manwonyori" "2024-06-01" "https://demo.cafe24api.com/api/v2" 100 1).
Proof.
  assert (forall status,
            get_async_auth_headers (env := demo_env (fun _ => token_ok) (always status))
              (_handle_rate_limit (env := demo_env (fun _ => token_ok) (always status))
                 (logged_in fresh_world))
            = ((get_async_auth_headers (env := demo_env (fun _ => token_ok) (always 200))
                  (_handle_rate_limit (env := demo_env (fun _ => token_ok) (always 200))
                     (logged_in fresh_world))).1,
               Ret {[ "Authorization" := "Bearer tok1";
                      "Content-Type" := "application/json";
                      "X-Cafe24-Api-Version" := "2024-06-01" ]})) as Hauth
    by (intros status; vm_compute; reflexivity).
  destruct (health_checks_by_status (env := demo_env (fun _ => token_ok) (always 204))
              demo_isoformat "manwonyori" (logged_in fresh_world) _ _
              (mk_response 204 ∅ "body" JsonDecodeError) (Hauth 204) eq_refl) as [Hping _].
  destruct (health_checks_by_status (env := demo_env (fun _ => token_ok) (always 202))
              demo_isoformat "manwonyori" (logged_in fresh_world) _ _
              (mk_response 202 ∅ "body" JsonDecodeError) (Hauth 202) eq_refl) as [_ Hother].
  destruct Hother as [Hping' Hinfo].
  - cbn [status_code]. rewrite !elem_of_cons, elem_of_nil.
    intros [?|[?|[?|[?|[?|[]]]]]]; discriminate.
  - cbn [status_code]. lia.
  - split; [apply Hping; left; reflexivity|].
    split; [exact Hping'|]. rewrite Hinfo. reflexivity.
Defined.

(** After [logout] the client is not authenticated. *)
Lemma logout_forgets_every_token_witness :
  (is_authenticated (env := demo_env (fun _ => token_ok) (always 200))
     (logout (logged_in fresh_world))).2 = false
  /\ (get_token (env := demo_env (fun _ => token_ok) (always 200)) "refresh"
        (logout (logged_in fresh_world))).2 = None.
Proof.
  destruct (logout_forgets_every_token (env := demo_env (fun _ => token_ok) (always 200))
              "refresh" (logged_in fresh_world)) as (Hget & _ & Hauth & _).
  rewrite Hauth, Hget. split; reflexivity.
Defined.

(** With Redis, a lifetime of zero seconds is refused, and the access
    token stored before is still found. *)
Lemma save_token_refusals_witness :
  (save_token (env := demo_env (fun _ => token_ok) (always 200))
     "access" "tok9" 0 None (logged_in fresh_world_redis)).2 = false
  /\ lookup_record "access"
       (save_token (env := demo_env (fun _ => token_ok) (always 200))
          "access" "tok9" 0 None (logged_in fresh_world_redis)).1
     = lookup_record "access" (logged_in fresh_world_redis).
Proof.
  destruct (save_token_refusals (env := demo_env (fun _ => token_ok) (always 200))
              "access" "tok9" 0 None (logged_in fresh_world_redis))
    as (Hfalse & _ & Hkept).
  - right. split; [eexists; vm_compute; reflexivity | lia].
  - split; assumption.
Defined.

(** The URL of the product list. *)
Lemma request_url_leading_slash_witness :
  request_url (env := demo_env (fun _ => token_ok) (always 200)) products_args
  = "https://demo.cafe24api.com/api/v2/admin/products".
Proof.
  destruct (request_url_leading_slash (env := demo_env (fun _ => token_ok) (always 200))
              products_args) as [_ Hjoin].
  destruct (Hjoin eq_refl) as (Hurl & _).
  rewrite Hurl. reflexivity.
Defined.

(** A product that the API does not know: four answers 404, then an
    [APIError] without status code. *)
Lemma not_found_is_an_error_witness :
  snd <$> get_product (env := demo_env (fun _ => token_ok) (always 404)) demo_isoformat
            "42" (logged_in fresh_world)
  = Some (Raise (new_APIError
                   (FCat (FStr "Failed to retrieve product: ") (FVal (PStr "body")))
                   None None)).
Proof.
  assert (client_get (env := demo_env (fun _ => token_ok) (always 404))
            "products/42" None (logged_in fresh_world)
          = Some ((default (fresh_world, Ret PNone)
                     (client_get (env := demo_env (fun _ => token_ok) (always 404))
                        "products/42" None (logged_in fresh_world))).1,
                  Raise (new_exn NetworkError (FVal (PStr "body"))))) as Hreq
    by (vm_compute; reflexivity).
  destruct (not_found_is_an_error (env := demo_env (fun _ => token_ok) (always 404))
              demo_isoformat "42" (logged_in fresh_world)
              (default (fresh_world, Ret PNone)
                 (client_get (env := demo_env (fun _ => token_ok) (always 404))
                    "products/42" None (logged_in fresh_world))).1) as [Hget _].
  rewrite (Hget _ Hreq). reflexivity.
Defined.

(** An update with an empty dictionary. *)
Lemma update_product_outcomes_witness :
  update_product (env := demo_env (fun _ => token_ok) (always 200)) demo_isoformat
    "42" (PDict []) 1 (logged_in fresh_world)
  = Some (logged_in fresh_world,
          Raise (new_exn ValidationError (FStr "No updates provided"))).
Proof.
  destruct (update_product_outcomes (env := demo_env (fun _ => token_ok) (always 200))
              demo_isoformat "42" (PDict []) 1 (logged_in fresh_world)) as [Hempty _].
  exact (Hempty eq_refl).
Defined.
